(** * Course and quiz REST handlers over a document store

    The handlers of [routes/courses.js] and [routes/quizzes.js] and the
    schemas of [models/Course.js] and [models/Quiz.js], embedded as
    functions over an explicit store.

    Every handler is one or two calls into the object-document mapper
    (Mongoose) wrapped in [try]/[catch].  The handlers and the schemas are
    transcribed from the source.  The mapper is modelled by what it does
    for these schemas: strict construction of a document from a request
    body, casting to the declared types, the [required] and [enum]
    validators that [save] runs, and the lookups, updates and deletions by
    identifier.  What differs between versions of the mapper or of the
    JavaScript runtime (which strings the ObjectId constructor accepts,
    the conversions between kinds of values, the treatment of embedded
    arrays, update validators) is gathered in the class [Conversions];
    the theorems hold for every instance of it.

    Scope of the model.  Numbers are the double-precision floats of the
    runtime.  A request body is a JSON object of field/value pairs; keys
    with a dot or a leading dollar sign (nested paths and update
    operators) are not interpreted, and the theorems that describe the
    content of a written record assume the body has none ([flat]).  A
    document is its identifier, the paths its schema declares and the
    version key [__v] of the mapper.  The identifiers that the mapper
    generates for the elements of embedded arrays are not modelled: the
    cast of an array is a function of its value.  The store is assumed
    to answer. *)

From Stdlib Require Import ZArith String List Ascii Bool PrimFloat FloatOps.
From stdpp Require Import base strings gmap.

Local Open Scope string_scope.
Local Open Scope Z_scope.

(** ** Values *)

(** A BSON ObjectId: twelve bytes, read as a number. *)
Definition ObjectId := N.

(** JavaScript values that occur in request bodies and stored documents.
    JSON.parse produces every kind but [VOid]. *)
#[warnings="-register-all"]
Inductive value : Type :=
  | VNull
  | VBool (b : bool)
  | VNum (n : float)
  | VStr (s : string)
  | VOid (o : ObjectId)
  | VArr (items : list value)
  | VObj (fields : list (string * value)).

(** A JavaScript object as its own enumerable properties in order. *)
Definition object := list (string * value).

(** [o[k]]; [None] is [undefined]. *)
Fixpoint obj_get (k : string) (o : object) : option value :=
  match o with
  | [] => None
  | (k', v) :: rest => if String.eqb k k' then Some v else obj_get k rest
  end.

(** [o[k] = v]: an existing property keeps its place, a new one goes last. *)
Fixpoint obj_set (k : string) (v : value) (o : object) : object :=
  match o with
  | [] => [(k, v)]
  | (k', v') :: rest =>
      if String.eqb k k' then (k', v) :: rest else (k', v') :: obj_set k v rest
  end.

(** [{ ...o, k: v }] *)
Definition spread_with (o : object) (k : string) (v : value) : object :=
  obj_set k v o.

(** Keys that are nested paths ([a.b]) or update operators ([$set]). *)
Fixpoint has_dot (s : string) : bool :=
  match s with
  | EmptyString => false
  | String c rest => if Ascii.eqb c "."%char then true else has_dot rest
  end.

Definition is_operator (s : string) : bool :=
  match s with
  | String c _ => Ascii.eqb c "$"%char
  | EmptyString => false
  end.

Definition flat_key (k : string) : bool := negb (has_dot k) && negb (is_operator k).

Definition flat (o : object) : Prop := forallb (fun kv => flat_key (fst kv)) o = true.

(** ** Schemas: models/Course.js and models/Quiz.js *)

#[warnings="-register-all"]
Inductive SchemaType : Type :=
  | String_
  | Number_
  | ObjectId_
  | Array_ (elem : SchemaType)
  | DocumentArray_ (sub : list (string * PathSpec))
with PathSpec : Type :=
  | Path (type : SchemaType) (required : bool) (enum : list string).

Definition Schema := list (string * PathSpec).

Definition path_type (p : PathSpec) : SchemaType := let 'Path t _ _ := p in t.
Definition path_required (p : PathSpec) : bool := let 'Path _ r _ := p in r.
Definition path_enum (p : PathSpec) : list string := let 'Path _ _ e := p in e.

(** [{ type: T, required: r }] and [{ type: T, enum: [...], required: r }] *)
Definition field (t : SchemaType) (r : bool) : PathSpec := Path t r [].

Definition chapterSchema : Schema :=
  [ ("title", field String_ true);
    ("content", field String_ true);
    ("description", field String_ true);
    ("videoLink", field String_ false);
    ("duration", field Number_ true) ].

Definition courseSchema : Schema :=
  [ ("category", field String_ true);
    ("title", field String_ true);
    ("description", field String_ true);
    ("duration", field Number_ true);
    ("instructorName", field String_ true);
    ("language", field String_ true);
    ("level", field String_ true);
    ("price", field Number_ true);
    ("status", Path String_ true ["published"; "draft"]);
    ("visibility", Path String_ true ["public"; "private"]);
    ("chapters", field (DocumentArray_ chapterSchema) false) ].

Definition questionSchema : Schema :=
  [ ("question", field String_ true);
    ("options", field (Array_ String_) true);
    ("correctAnswer", field String_ true) ].

Definition quizSchema : Schema :=
  [ ("courseId", field ObjectId_ true);
    ("questions", field (DocumentArray_ questionSchema) false) ].

Fixpoint schema_path (k : string) (s : Schema) : option PathSpec :=
  match s with
  | [] => None
  | (k', p) :: rest => if String.eqb k k' then Some p else schema_path k rest
  end.

(** ** Version-dependent conversions of the mapper and the runtime *)

Class Conversions : Type := {
  (** [new ObjectId(s)] for a string; [None] when it throws. *)
  castObjectId : string -> option ObjectId;
  (** What the String type makes of a value that is neither null nor a
      string; [None] is a CastError. *)
  coerceString : value -> option string;
  (** What the Number type makes of a value that is neither null nor a
      number; [Some None] is null (the empty string). *)
  coerceNumber : value -> option (option float);
  (** What the ObjectId type makes of a value that is neither null, a
      string nor an ObjectId. *)
  coerceObjectId : value -> option ObjectId;
  (** Casting of a present value to an array or document-array path. *)
  castEmbedded : SchemaType -> value -> option value;
  (** Validation, on [save], of an array or document-array path. *)
  validateEmbedded : PathSpec -> option value -> bool;
  (** The update validators that [runValidators: true] runs on the cast
      [$set] of an update. *)
  updateValidators : Schema -> object -> bool;
  (** An optional array path that holds the empty array is valid. *)
  validateEmbedded_empty :
    forall p, path_required p = false -> validateEmbedded p (Some (VArr [])) = true
}.

(** ** The store *)

Inductive Collection : Type := Courses | Quizzes.

(** The two collections, each keyed by the documents' [_id]. *)
Record Db : Type := {
  courses : gmap ObjectId object;
  quizzes : gmap ObjectId object
}.

Definition collection (c : Collection) (db : Db) : gmap ObjectId object :=
  match c with Courses => courses db | Quizzes => quizzes db end.

Definition with_collection (c : Collection) (docs : gmap ObjectId object) (db : Db) : Db :=
  match c with
  | Courses => {| courses := docs; quizzes := quizzes db |}
  | Quizzes => {| courses := courses db; quizzes := docs |}
  end.

(** The commands a handler sends to the store, in the order it sends them. *)
Inductive StoreOp : Type :=
  | FindOne (c : Collection) (id : ObjectId)
  | InsertOne (c : Collection) (id : ObjectId)
  | FindOneAndUpdate (c : Collection) (id : ObjectId)
  | FindOneAndDelete (c : Collection) (id : ObjectId).

Definition is_write (op : StoreOp) : bool :=
  match op with FindOne _ _ => false | _ => true end.

(** What a rejected promise carries. *)
Inductive Error : Type :=
  | CastError (path : string)
  | ValidationError (paths : list string)
  | MissingId
  | DuplicateKey
  | ImmutableField.

(** ** Asynchronous code as a state, error and trace monad *)

Record Outcome (A : Type) : Type := {
  result : Error + A;
  store : Db;
  trace : list StoreOp
}.
Arguments result {A}.
Arguments store {A}.
Arguments trace {A}.

Definition M (A : Type) : Type := Db -> Outcome A.

Definition ret {A} (a : A) : M A :=
  fun db => {| result := inr a; store := db; trace := [] |}.

Definition throw {A} (e : Error) : M A :=
  fun db => {| result := inl e; store := db; trace := [] |}.

Definition bind {A B} (m : M A) (k : A -> M B) : M B :=
  fun db =>
    let o := m db in
    match result o with
    | inl e => {| result := inl e; store := store o; trace := trace o |}
    | inr a =>
        let o' := k a (store o) in
        {| result := result o'; store := store o'; trace := trace o ++ trace o' |}
    end.

(** [try { m } catch (err) { h err }] *)
Definition try_catch {A} (m : M A) (h : Error -> M A) : M A :=
  fun db =>
    let o := m db in
    match result o with
    | inl e =>
        let o' := h e (store o) in
        {| result := result o'; store := store o'; trace := trace o ++ trace o' |}
    | inr _ => o
    end.

Declare Scope async_scope.
Delimit Scope async_scope with async.
Notation "x <- m ;; k" := (bind m (fun x => k))
  (at level 100, m at next level, right associativity) : async_scope.
Notation "m ;; k" := (bind m (fun _ => k))
  (at level 100, right associativity) : async_scope.
Notation "'try' m 'catch' err '=>' h" := (try_catch m (fun err => h))
  (at level 10, m at level 100, err name, h at level 200) : async_scope.

(** The commands themselves. *)
Definition findOne (c : Collection) (id : ObjectId) : M (option object) :=
  fun db => {| result := inr (collection c db !! id); store := db; trace := [FindOne c id] |}.

Definition insertOne (c : Collection) (id : ObjectId) (doc : object) : M unit :=
  fun db =>
    match collection c db !! id with
    | Some _ => {| result := inl DuplicateKey; store := db; trace := [InsertOne c id] |}
    | None =>
        {| result := inr tt;
           store := with_collection c (<[id := doc]> (collection c db)) db;
           trace := [InsertOne c id] |}
    end.

(** [$set] of the given paths on the document. *)
Definition apply_set (sets : object) (doc : object) : object :=
  fold_left (fun d kv => obj_set (fst kv) (snd kv) d) sets doc.

(** Whether a [$set] would change [_id], which the store refuses. *)
Definition changes_id (id : ObjectId) (sets : object) : bool :=
  match obj_get "_id" sets with
  | None => false
  | Some (VOid o) => negb (N.eqb o id)
  | Some _ => true
  end.

Definition findOneAndUpdate (c : Collection) (id : ObjectId) (sets : object)
    (returnNew : bool) : M (option object) :=
  fun db =>
    match collection c db !! id with
    | None => {| result := inr None; store := db; trace := [FindOneAndUpdate c id] |}
    | Some doc =>
        if changes_id id sets then
          {| result := inl ImmutableField; store := db; trace := [FindOneAndUpdate c id] |}
        else
          let doc' := apply_set sets doc in
          {| result := inr (Some (if returnNew then doc' else doc));
             store := with_collection c (<[id := doc']> (collection c db)) db;
             trace := [FindOneAndUpdate c id] |}
    end.

Definition findOneAndDelete (c : Collection) (id : ObjectId) : M (option object) :=
  fun db =>
    {| result := inr (collection c db !! id);
       store := with_collection c (delete id (collection c db)) db;
       trace := [FindOneAndDelete c id] |}.

(** ** The mapper: models over schemas *)

Record Model : Type := {
  schema : Schema;
  coll : Collection
}.

(** [mongoose.model('Course', courseSchema)] and
    [mongoose.model('Quiz', quizSchema)] *)
Definition Course : Model := {| schema := courseSchema; coll := Courses |}.
Definition Quiz : Model := {| schema := quizSchema; coll := Quizzes |}.

(** The [_id] path that every schema gets, and the version key that
    every model adds to its schema ([versionKey], a Number path). *)
Definition idPath : string * PathSpec := ("_id", field ObjectId_ false).

Definition versionPath : string * PathSpec := ("__v", field Number_ false).

Definition paths (m : Model) : Schema := idPath :: schema m ++ [versionPath].

(** A document made by [new Model(body)] and not saved yet: the paths
    that were set, and the paths whose value could not be cast. *)
Record Document : Type := {
  fields : object;
  castErrors : list string
}.

(** [{ new: ..., runValidators: ... }] *)
Record QueryOptions : Type := {
  new : bool;
  runValidators : bool
}.

(** ** Requests and responses *)

(** The path parameter of the route ([req.params.id] or
    [req.params.courseId]) and the parsed JSON body ([req.body]). *)
Record Request : Type := {
  param : string;
  body : object
}.

(** The text of a response: a literal of the handler, or [err.message]. *)
Inductive Text : Type :=
  | Literal (s : string)
  | message (err : Error).

(** [res.json(doc)], [res.json({ error: ... })], [res.json({ message: ... })] *)
Inductive Json : Type :=
  | Doc (doc : object)
  | ErrorBody (t : Text)
  | MessageBody (t : Text).

Record Response : Type := {
  status : nat;
  json : Json
}.

Section Mapper.
Context `{Conversions}.

(** Casting to the scalar types.  Null is never cast; a value of the
    declared kind is kept as it is. *)
Definition castString (v : value) : option value :=
  match v with
  | VNull => Some VNull
  | VStr s => Some (VStr s)
  | _ => VStr <$> coerceString v
  end.

(** A number is kept unless it is NaN, which is a CastError. *)
Definition number (n : float) : option value :=
  if is_nan n then None else Some (VNum n).

Definition castNumber (v : value) : option value :=
  match v with
  | VNull => Some VNull
  | VNum n => number n
  | _ =>
      match coerceNumber v with
      | None => None
      | Some None => Some VNull
      | Some (Some n) => number n
      end
  end.

Definition castId (v : value) : option value :=
  match v with
  | VNull => Some VNull
  | VOid o => Some (VOid o)
  | VStr s => VOid <$> castObjectId s
  | _ => VOid <$> coerceObjectId v
  end.

Definition cast (t : SchemaType) (v : value) : option value :=
  match t with
  | String_ => castString v
  | Number_ => castNumber v
  | ObjectId_ => castId v
  | Array_ _ | DocumentArray_ _ => castEmbedded t v
  end.

(** Defaults: a generated identifier for [_id], the empty array for
    array paths, nothing for the rest. *)
Definition defaultOf (gen : ObjectId) (k : string) (p : PathSpec) : option value :=
  if String.eqb k "_id" then Some (VOid gen)
  else
    match path_type p with
    | Array_ _ | DocumentArray_ _ => Some (VArr [])
    | _ => None
    end.

(** Strict construction: only the paths of the schema are read from the
    body; each is cast, or gets its default when the body has none. *)
Fixpoint build (gen : ObjectId) (ps : Schema) (body : object) : Document :=
  match ps with
  | [] => {| fields := []; castErrors := [] |}
  | (k, p) :: rest =>
      let d := build gen rest body in
      match obj_get k body with
      | None =>
          match defaultOf gen k p with
          | Some v => {| fields := (k, v) :: fields d; castErrors := castErrors d |}
          | None => d
          end
      | Some v =>
          match cast (path_type p) v with
          | Some v' => {| fields := (k, v') :: fields d; castErrors := castErrors d |}
          | None => {| fields := fields d; castErrors := k :: castErrors d |}
          end
      end
  end.

(** [new Model(body)]; [gen] is the ObjectId generated for the request. *)
Definition new_ (m : Model) (gen : ObjectId) (body : object) : Document :=
  build gen (paths m) body.

(** The [required] validator of each scalar type. *)
Definition checkRequired (t : SchemaType) (v : option value) : bool :=
  match t, v with
  | String_, Some (VStr s) => negb (String.eqb s "")
  | Number_, Some (VNum _) => true
  | ObjectId_, Some (VOid _) => true
  | _, _ => false
  end.

(** The [enum] validator; it leaves null and undefined to [required]. *)
Definition checkEnum (allowed : list string) (v : option value) : bool :=
  match allowed with
  | [] => true
  | _ =>
      match v with
      | None | Some VNull => true
      | Some (VStr s) => existsb (String.eqb s) allowed
      | Some _ => false
      end
  end.

(** The validators of a scalar path. *)
Definition validScalar (p : PathSpec) (v : option value) : bool :=
  (if path_required p then checkRequired (path_type p) v else true)
  && checkEnum (path_enum p) v.

Definition validPath (doc : object) (kp : string * PathSpec) : bool :=
  let (k, p) := kp in
  match path_type p with
  | Array_ _ | DocumentArray_ _ => validateEmbedded p (obj_get k doc)
  | _ => validScalar p (obj_get k doc)
  end.

(** [doc.validate()]: the paths in error. *)
Definition validate (s : Schema) (d : Document) : list string :=
  castErrors d ++ map fst (List.filter (fun kp => negb (validPath (fields d) kp)) s).

(** An insert sets the version key of the document to 0, whatever the
    document held there. *)
Definition versioned (doc : object) : object := obj_set "__v" (VNum 0) doc.

(** The copy of a document that the driver inserts, and the identifier
    under which it does: the document itself under its [_id], or, when
    its [_id] is null, a copy to which the driver gives an identifier of
    its own ([gen], the ObjectId generated for the request).  A document
    without [_id] is not sent. *)
Definition inserted (gen : ObjectId) (doc : object) : option (ObjectId * object) :=
  match obj_get "_id" doc with
  | Some (VOid id) => Some (id, doc)
  | Some VNull => Some (gen, obj_set "_id" (VOid gen) doc)
  | _ => None
  end.

(** [await doc.save()] of a new document; it resolves to the document,
    which keeps the [_id] it had. *)
Definition save (m : Model) (gen : ObjectId) (d : Document) : M object :=
  match validate (schema m) d with
  | (_ :: _) as errs => throw (ValidationError errs)
  | [] =>
      let doc := versioned (fields d) in
      match inserted gen doc with
      | Some (id, copy) => (insertOne (coll m) id copy ;; ret doc)%async
      | None => throw MissingId
      end
  end.

(** A value that already has the scalar type of the path. *)
Definition typed (t : SchemaType) (v : value) : bool :=
  match t, v with
  | String_, VStr _ | ObjectId_, VOid _ => true
  | Number_, VNum n => negb (is_nan n)
  | _, _ => false
  end.

(** Payloads that a model accepts as they are: every scalar path of the
    schema holds a value of its own type that its validators accept, or
    is optional and absent; every array path is absent and optional, or
    holds a value that the mapper casts and validates. *)
Definition accepts (p : PathSpec) (v : option value) : bool :=
  match path_type p with
  | Array_ _ | DocumentArray_ _ =>
      match v with
      | None => negb (path_required p)
      | Some v =>
          match castEmbedded (path_type p) v with
          | Some v' => validateEmbedded p (Some v')
          | None => false
          end
      end
  | t =>
      match v with
      | None => negb (path_required p)
      | Some v => typed t v && validScalar p (Some v)
      end
  end.

Definition validPayload (s : Schema) (body : object) : bool :=
  forallb (fun kp => accepts (snd kp) (obj_get (fst kp) body)) s.

(** Casting of the [_id] condition of the by-id queries. *)
Definition castCondition (id : string) : M ObjectId :=
  match castObjectId id with
  | Some o => ret o
  | None => throw (CastError "_id")
  end.

(** [await Model.findById(id)] *)
Definition findById (m : Model) (id : string) : M (option object) :=
  (o <- castCondition id ;;
   findOne (coll m) o)%async.

(** Casting of an update: the schema paths that the update names become
    the [$set]; the first path that cannot be cast is thrown. *)
Fixpoint castUpdate (ps : Schema) (update : object) : Error + object :=
  match ps with
  | [] => inr []
  | (k, p) :: rest =>
      match obj_get k update with
      | None => castUpdate rest update
      | Some v =>
          match cast (path_type p) v with
          | None => inl (CastError k)
          | Some v' =>
              match castUpdate rest update with
              | inl e => inl e
              | inr sets => inr ((k, v') :: sets)
              end
          end
      end
  end.

Definition lift {A} (r : Error + A) : M A :=
  match r with inl e => throw e | inr a => ret a end.

(** [await Model.findByIdAndUpdate(id, update, options)]: an update
    that is empty once it is cast is sent as a read. *)
Definition findByIdAndUpdate (m : Model) (id : string) (update : object)
    (options : QueryOptions) : M (option object) :=
  (o <- castCondition id ;;
   sets <- lift (castUpdate (paths m) update) ;;
   match sets with
   | [] => findOne (coll m) o
   | _ :: _ =>
       (if runValidators options && negb (updateValidators (schema m) sets)
        then throw (ValidationError (map fst sets)) else ret tt) ;;
       findOneAndUpdate (coll m) o sets (new options)
   end)%async.

(** Whether the validators that the options ask for stop the update;
    there is nothing to validate in an empty one. *)
Definition rejected (m : Model) (options : QueryOptions) (sets : object) : bool :=
  match sets with
  | [] => false
  | _ :: _ => runValidators options && negb (updateValidators (schema m) sets)
  end.

(** [await Model.findByIdAndDelete(id)] *)
Definition findByIdAndDelete (m : Model) (id : string) : M (option object) :=
  (o <- castCondition id ;;
   findOneAndDelete (coll m) o)%async.

(** ** The handlers: routes/courses.js and routes/quizzes.js *)

(** [router.post('/api/courses', ...)] *)
Definition postCourse (gen : ObjectId) (req : Request) : M Response :=
  (try
     (let course := new_ Course gen (body req) in
      course <- save Course gen course ;;
      ret {| status := 201; json := Doc course |})
   catch err =>
     ret {| status := 400; json := ErrorBody (message err) |})%async.

(** [router.get('/api/courses/:id', ...)] *)
Definition getCourse (req : Request) : M Response :=
  (try
     (course <- findById Course (param req) ;;
      match course with
      | None => ret {| status := 404; json := ErrorBody (Literal "Course not found") |}
      | Some course => ret {| status := 200; json := Doc course |}
      end)
   catch err =>
     ret {| status := 400; json := ErrorBody (message err) |})%async.

(** [router.put('/api/courses/:id', ...)] *)
Definition putCourse (req : Request) : M Response :=
  (try
     (updatedCourse <- findByIdAndUpdate Course (param req) (body req)
                         {| new := true; runValidators := false |} ;;
      match updatedCourse with
      | None => ret {| status := 404; json := ErrorBody (Literal "Course not found") |}
      | Some updatedCourse => ret {| status := 200; json := Doc updatedCourse |}
      end)
   catch err =>
     ret {| status := 400; json := ErrorBody (message err) |})%async.

(** [router.delete('/api/courses/:id', ...)] *)
Definition deleteCourse (req : Request) : M Response :=
  (try
     (course <- findByIdAndDelete Course (param req) ;;
      match course with
      | None => ret {| status := 404; json := ErrorBody (Literal "Course not found") |}
      | Some _ => ret {| status := 200; json := MessageBody (Literal "Course deleted") |}
      end)
   catch err =>
     ret {| status := 400; json := ErrorBody (message err) |})%async.

(** [router.post('/api/courses/:courseId/quizzes', ...)] *)
Definition postQuiz (gen : ObjectId) (req : Request) : M Response :=
  (try
     (course <- findById Course (param req) ;;
      match course with
      | None => ret {| status := 404; json := ErrorBody (Literal "Course not found") |}
      | Some _ =>
          let quiz := new_ Quiz gen (spread_with (body req) "courseId" (VStr (param req))) in
          quiz <- save Quiz gen quiz ;;
          ret {| status := 201; json := Doc quiz |}
      end)
   catch err =>
     ret {| status := 400; json := ErrorBody (message err) |})%async.

(** [router.get('/api/quizzes/:id', ...)] *)
Definition getQuiz (req : Request) : M Response :=
  (try
     (quiz <- findById Quiz (param req) ;;
      match quiz with
      | None => ret {| status := 404; json := ErrorBody (Literal "Quiz not found") |}
      | Some quiz => ret {| status := 200; json := Doc quiz |}
      end)
   catch err =>
     ret {| status := 400; json := ErrorBody (message err) |})%async.

(** [router.put('/api/quizzes/:id', ...)] *)
Definition putQuiz (req : Request) : M Response :=
  let quizId := param req in
  let updatedQuiz := body req in
  (try
     (quiz <- findByIdAndUpdate Quiz quizId updatedQuiz
                {| new := true; runValidators := true |} ;;
      match quiz with
      | None => ret {| status := 404; json := MessageBody (Literal "Quiz not found") |}
      | Some quiz => ret {| status := 200; json := Doc quiz |}
      end)
   catch err =>
     ret {| status := 500; json := MessageBody (Literal "Server error") |})%async.

(** [router.delete('/api/quizzes/:id', ...)] *)
Definition deleteQuiz (req : Request) : M Response :=
  (try
     (quiz <- findByIdAndDelete Quiz (param req) ;;
      match quiz with
      | None => ret {| status := 404; json := ErrorBody (Literal "Quiz not found") |}
      | Some _ => ret {| status := 200; json := MessageBody (Literal "Quiz deleted") |}
      end)
   catch err =>
     ret {| status := 400; json := ErrorBody (message err) |})%async.

End Mapper.

(** ** A reference instance of the conversions

    Used for the closed examples.  It accepts as identifiers exactly the
    strings of 24 hexadecimal digits, converts strings and booleans to
    numbers as [Number] does and numbers and booleans to strings as
    [String] does (strings are in UTF-8), and treats the elements of
    embedded arrays path by path. *)

Definition hexDigit (c : ascii) : option N :=
  let n := N_of_ascii c in
  if (48 <=? n)%N && (n <=? 57)%N then Some (n - 48)%N
  else if (97 <=? n)%N && (n <=? 102)%N then Some (n - 87)%N
  else if (65 <=? n)%N && (n <=? 70)%N then Some (n - 55)%N
  else None.

Fixpoint hexNumber (acc : N) (s : string) : option N :=
  match s with
  | EmptyString => Some acc
  | String c rest =>
      match hexDigit c with
      | Some d => hexNumber (16 * acc + d)%N rest
      | None => None
      end
  end.

Definition hex24 (s : string) : option ObjectId :=
  if Nat.eqb (String.length s) 24 then hexNumber 0%N s else None.

(** The double nearest to [m * 10 ^ e], ties to even, with the sign [neg]. *)
Definition doubleOf (neg : bool) (m e : Z) : float :=
  let signed (z : Z) := if neg then - z else z in
  SF2Prim
    (if 0 <=? e then SpecFloat.binary_normalize prec emax (signed (m * 10 ^ e)) 0 neg
     else if m =? 0 then SpecFloat.S754_zero neg
     else
       let den := 10 ^ (- e) in
       let s := Z.max 0 (70 + Z.log2 den - Z.log2 m) in
       let q := (m * 2 ^ s) / den in
       let sticky := if (m * 2 ^ s) mod den =? 0 then 0 else 1 in
       SpecFloat.binary_normalize prec emax (signed (2 * q + sticky)) (- s - 1) neg).

Definition digitOf (base : N) (c : ascii) : option Z :=
  let n := N_of_ascii c in
  let d := if (48 <=? n)%N && (n <=? 57)%N then Some (n - 48)%N
           else if (97 <=? n)%N && (n <=? 122)%N then Some (n - 87)%N
           else if (65 <=? n)%N && (n <=? 90)%N then Some (n - 55)%N
           else None in
  match d with
  | Some d => if (d <? base)%N then Some (Z.of_N d) else None
  | None => None
  end.

(** The longest prefix of digits of the base, as a number and a length,
    and what follows it. *)
Fixpoint digits (base : N) (acc : Z) (len : Z) (s : string) : Z * Z * string :=
  match s with
  | EmptyString => (acc, len, s)
  | String c rest =>
      match digitOf base c with
      | Some d => digits base (Z.of_N base * acc + d) (len + 1) rest
      | None => (acc, len, s)
      end
  end.

(** What follows one white space or line terminator character at the
    beginning of a string (in UTF-8), if it begins with one. *)
Definition afterSpace (s : string) : option string :=
  let byte (c : ascii) := N_of_ascii c in
  match s with
  | String c r =>
      let n := byte c in
      if ((9 <=? n) && (n <=? 13) || (n =? 32))%N then Some r
      else
        match r with
        | String c1 r1 =>
            let n1 := byte c1 in
            if ((n =? 194) && (n1 =? 160))%N then Some r1
            else
              match r1 with
              | String c2 r2 =>
                  let n2 := byte c2 in
                  if ((n =? 225) && (n1 =? 154) && (n2 =? 128)
                      || (n =? 226) && (n1 =? 128)
                         && ((128 <=? n2) && (n2 <=? 138) || (n2 =? 168) || (n2 =? 169)
                             || (n2 =? 175))
                      || (n =? 226) && (n1 =? 129) && (n2 =? 159)
                      || (n =? 227) && (n1 =? 128) && (n2 =? 128)
                      || (n =? 239) && (n1 =? 187) && (n2 =? 191))%N
                  then Some r2 else None
              | EmptyString => None
              end
        | EmptyString => None
        end
  | EmptyString => None
  end.

Fixpoint trimStart (fuel : nat) (s : string) : string :=
  match fuel with
  | O => s
  | S fuel' =>
      match afterSpace s with
      | Some rest => trimStart fuel' rest
      | None => s
      end
  end.

(** Whether the string is white space only. *)
Definition blank (s : string) : bool :=
  match trimStart (String.length s) s with
  | EmptyString => true
  | _ => false
  end.

Fixpoint trimEnd (s : string) : string :=
  match s with
  | EmptyString => s
  | String c rest => if blank s then EmptyString else String c (trimEnd rest)
  end.

Definition trim (s : string) : string :=
  trimEnd (trimStart (String.length s) s).

Definition signOf (s : string) : bool * string :=
  match s with
  | String "-" rest => (true, rest)
  | String "+" rest => (false, rest)
  | _ => (false, s)
  end.

(** [DecimalDigits . DecimalDigits? ExponentPart?] and its variants. *)
Definition decimal (neg : bool) (s : string) : option float :=
  let '(ip, ilen, r1) := digits 10 0 0 s in
  let '(m, flen, r2) :=
    match r1 with
    | String "." r => digits 10 ip 0 r
    | _ => (ip, 0, r1)
    end in
  if ilen + flen =? 0 then None
  else
    match r2 with
    | EmptyString => Some (doubleOf neg m (- flen))
    | String c r3 =>
        if Ascii.eqb c "e" || Ascii.eqb c "E" then
          let (eneg, r4) := signOf r3 in
          match digits 10 0 0 r4 with
          | (e, elen, EmptyString) =>
              if elen =? 0 then None
              else Some (doubleOf neg m ((if eneg then - e else e) - flen))
          | _ => None
          end
        else None
    end.

(** A literal of another base, which takes no sign. *)
Definition prefixed (s : string) : option (option float) :=
  let whole (base : N) (r : string) :=
    match digits base 0 0 r with
    | (n, len, EmptyString) => if len =? 0 then None else Some (doubleOf false n 0)
    | _ => None
    end in
  match s with
  | String "0" (String c r) =>
      if Ascii.eqb c "x" || Ascii.eqb c "X" then Some (whole 16%N r)
      else if Ascii.eqb c "o" || Ascii.eqb c "O" then Some (whole 8%N r)
      else if Ascii.eqb c "b" || Ascii.eqb c "B" then Some (whole 2%N r)
      else None
  | _ => None
  end.

(** [Number(s)] for a string, as the Number type uses it: the empty
    string is null, and NaN is left to the caller as [nan]. *)
Definition numberOfString (s : string) : option (option float) :=
  match s with
  | EmptyString => Some None
  | _ =>
      let t := trim s in
      match t with
      | EmptyString => Some (Some 0%float)
      | _ =>
          match prefixed t with
          | Some n => Some <$> n
          | None =>
              let (neg, r) := signOf t in
              if String.eqb r "Infinity"
              then Some (Some (if neg then neg_infinity else infinity))
              else Some <$> decimal neg r
          end
      end
  end.


(** The decimal digits of a natural number, at least [width] of them. *)
Fixpoint decimalDigits (fuel : nat) (width : Z) (n : Z) (acc : string) : string :=
  match fuel with
  | O => acc
  | S fuel' =>
      let acc' := String (ascii_of_N (48 + Z.to_N (n mod 10))) acc in
      if (n <? 10) && (width <=? 1) then acc' else decimalDigits fuel' (width - 1) (n / 10) acc'
  end.

Definition digitsOf (width : Z) (n : Z) : string :=
  decimalDigits (S (Z.to_nat (Z.max width (Z.log2 n + 1)))) width n "".

Fixpoint zeros (n : nat) : string :=
  match n with O => "" | S n' => String "0" (zeros n') end.

(** Whether [10 ^ j <= m * 2 ^ e]. *)
Definition reaches (m e j : Z) : bool :=
  let scale (z k : Z) := if 0 <=? k then z * 2 ^ k else z in
  let scale10 (z k : Z) := if 0 <=? k then z * 10 ^ k else z in
  scale10 (scale 1 (- e)) j <=? scale10 (scale m e) (- j).

(** The [n] with [10 ^ (n - 1) <= m * 2 ^ e < 10 ^ n], from an estimate. *)
Fixpoint magnitude (fuel : nat) (m e n : Z) : Z :=
  match fuel with
  | O => n
  | S fuel' =>
      if reaches m e n then magnitude fuel' m e (n + 1)
      else if reaches m e (n - 1) then n
      else magnitude fuel' m e (n - 1)
  end.

(** The shortest digits [s] and the exponent [n] with which
    [s * 10 ^ (n - k)], [k] the number of digits of [s], reads back as
    the float [m * 2 ^ e]; of two candidates of a length, the closer. *)
Fixpoint shortest (fuel : nat) (x : float) (m e n k : Z) : Z * Z :=
  let p := n - k in
  let num := (if 0 <=? e then m * 2 ^ e else m) * (if 0 <=? p then 1 else 10 ^ (- p)) in
  let den := (if 0 <=? e then 1 else 2 ^ (- e)) * (if 0 <=? p then 10 ^ p else 1) in
  let lo := num / den in
  let hi := lo + 1 in
  let back (s : Z) := PrimFloat.Leibniz.eqb (doubleOf false s p) x in
  let closer_lo :=
    let twice := 2 * num - (lo + hi) * den in
    if twice <? 0 then true else if 0 <? twice then false else Z.even lo in
  match fuel with
  | O => (lo, p)
  | S fuel' =>
      if back lo && (negb (back hi) || closer_lo) then (lo, p)
      else if back hi then (hi, p)
      else shortest fuel' x m e n (k + 1)
  end.

Fixpoint stripZeros (fuel : nat) (s p : Z) : Z * Z :=
  match fuel with
  | O => (s, p)
  | S fuel' => if (s mod 10 =? 0) && (0 <? s) then stripZeros fuel' (s / 10) (p + 1) else (s, p)
  end.

Definition splitAt (n : nat) (s : string) : string * string :=
  (substring 0 n s, substring n (String.length s - n) s).

(** [String(x)] for a number. *)
Definition stringOfNumber (x : float) : string :=
  match Prim2SF x with
  | SpecFloat.S754_nan => "NaN"
  | SpecFloat.S754_zero _ => "0"
  | SpecFloat.S754_infinity neg => if neg then "-Infinity" else "Infinity"
  | SpecFloat.S754_finite neg m e =>
      let m := Z.pos m in
      let n0 := magnitude 8 m e (((Z.log2 m + e) * 30103) / 100000) in
      let (s0, p0) := shortest 17 (abs x) m e n0 1 in
      let (s, p) := stripZeros 400 s0 p0 in
      let ds := digitsOf 1 s in
      let k := Z.of_nat (String.length ds) in
      let n := p + k in
      let body :=
        if (k <=? n) && (n <=? 21) then ds ++ zeros (Z.to_nat (n - k))
        else if (0 <? n) && (n <=? 21) then
          let (a, b) := splitAt (Z.to_nat n) ds in a ++ "." ++ b
        else if (-6 <? n) && (n <=? 0) then "0." ++ zeros (Z.to_nat (- n)) ++ ds
        else
          let (a, b) := splitAt 1 ds in
          let ex := (if n - 1 <? 0 then "-" else "+") ++ digitsOf 1 (Z.abs (n - 1)) in
          (if k =? 1 then a else a ++ "." ++ b) ++ "e" ++ ex in
      if neg then "-" ++ body else body
  end.

(** [String(v)] for a value of a request body. *)
Fixpoint jsString (v : value) : string :=
  match v with
  | VNull => "null"
  | VBool b => if b then "true" else "false"
  | VNum n => stringOfNumber n
  | VStr s => s
  | VOid _ => ""
  | VArr l =>
      (fix join (l : list value) : string :=
         let item (x : value) := match x with VNull => "" | _ => jsString x end in
         match l with
         | [] => ""
         | [x] => item x
         | x :: rest => item x ++ "," ++ join rest
         end) l
  | VObj _ => "[object Object]"
  end.

Definition scalarConversions : Conversions := {|
  castObjectId := hex24;
  (** A number or a boolean is its string; an object is the string it
      has under [_id], if it has one that is not empty; an array and
      another object are a CastError. *)
  coerceString := fun v =>
    match v with
    | VNum _ | VBool _ => Some (jsString v)
    | VObj o =>
        match obj_get "_id" o with
        | Some (VStr (String c s)) => Some (String c s)
        | _ => None
        end
    | _ => None
    end;
  coerceNumber := fun v =>
    match v with
    | VStr s => numberOfString s
    | VBool b => Some (Some (if b then 1%float else 0%float))
    | _ => None
    end;
  (** The identifier that the string of the value denotes, for an
      object the string of what it has under [_id]. *)
  coerceObjectId := fun v =>
    match v with
    | VObj o =>
        match obj_get "_id" o with
        | Some id => hex24 (jsString id)
        | None => None
        end
    | _ => hex24 (jsString v)
    end;
  castEmbedded := fun _ _ => None;
  validateEmbedded := fun _ _ => true;
  updateValidators := fun _ _ => true;
  validateEmbedded_empty := fun _ _ => eq_refl
|}.

Fixpoint castAll (f : value -> option value) (l : list value) : option (list value) :=
  match l with
  | [] => Some []
  | v :: rest =>
      match f v, castAll f rest with
      | Some v', Some rest' => Some (v' :: rest')
      | _, _ => None
      end
  end.

(** Arrays of scalars are cast element by element; a value that is not
    an array is cast as the array of that one value. *)
Definition castArray (t : SchemaType) (v : value) : option value :=
  match v, t with
  | VNull, _ => Some VNull
  | VArr l, Array_ elem => VArr <$> castAll (@cast scalarConversions elem) l
  | _, Array_ elem => VArr <$> castAll (@cast scalarConversions elem) [v]
  | _, _ => None
  end.

Definition arrayConversions : Conversions := {|
  castObjectId := hex24;
  coerceString := @coerceString scalarConversions;
  coerceNumber := @coerceNumber scalarConversions;
  coerceObjectId := @coerceObjectId scalarConversions;
  castEmbedded := castArray;
  validateEmbedded := fun p v =>
    match v with
    | Some (VArr _) => true
    | _ => negb (path_required p)
    end;
  updateValidators := fun _ _ => true;
  validateEmbedded_empty := fun _ _ => eq_refl
|}.

(** An element of a document array is built like a document, without an
    identifier of its own; a null element is left as it is. *)
Definition castElement (sub : Schema) (v : value) : option value :=
  match v with
  | VNull => Some VNull
  | VObj o =>
      let d := @build arrayConversions 0%N sub o in
      match castErrors d with
      | [] => Some (VObj (fields d))
      | _ => None
      end
  | _ => None
  end.

Definition referenceCastEmbedded (t : SchemaType) (v : value) : option value :=
  match v, t with
  | VNull, _ => Some VNull
  | VArr l, DocumentArray_ sub => VArr <$> castAll (castElement sub) l
  | _, DocumentArray_ sub => VArr <$> castAll (castElement sub) [v]
  | _, _ => castArray t v
  end.

Definition validElement (sub : Schema) (v : value) : bool :=
  match v with
  | VNull => true
  | VObj o => forallb (@validPath arrayConversions o) sub
  | _ => false
  end.

Definition validElementOf (p : PathSpec) (v : value) : bool :=
  match path_type p with
  | DocumentArray_ sub => validElement sub v
  | _ => true
  end.

Definition referenceValidateEmbedded (p : PathSpec) (v : option value) : bool :=
  match v with
  | Some (VArr l) => forallb (validElementOf p) l
  | _ => negb (path_required p)
  end.

Definition embeddedConversions : Conversions := {|
  castObjectId := hex24;
  coerceString := @coerceString scalarConversions;
  coerceNumber := @coerceNumber scalarConversions;
  coerceObjectId := @coerceObjectId scalarConversions;
  castEmbedded := referenceCastEmbedded;
  validateEmbedded := referenceValidateEmbedded;
  updateValidators := fun _ _ => true;
  validateEmbedded_empty := fun _ _ => eq_refl
|}.

(** The update validators run the validators of each path that the
    [$set] names, on the value it sets. *)
Definition referenceUpdateValidators (s : Schema) (sets : object) : bool :=
  forallb (fun kp => match obj_get (fst kp) sets with
                     | None => true
                     | Some _ => @validPath embeddedConversions sets kp
                     end) s.

Definition reference : Conversions := {|
  castObjectId := hex24;
  coerceString := @coerceString scalarConversions;
  coerceNumber := @coerceNumber scalarConversions;
  coerceObjectId := @coerceObjectId scalarConversions;
  castEmbedded := referenceCastEmbedded;
  validateEmbedded := referenceValidateEmbedded;
  updateValidators := referenceUpdateValidators;
  validateEmbedded_empty := fun _ _ => eq_refl
|}.

Definition emptyDb : Db := {| courses := ∅; quizzes := ∅ |}.

(** A course payload with the ten required fields. *)
Definition introCourse : object :=
  [ ("category", VStr "programming");
    ("title", VStr "Intro");
    ("description", VStr "d");
    ("duration", VNum 5);
    ("instructorName", VStr "A");
    ("language", VStr "en");
    ("level", VStr "beginner");
    ("price", VNum 10);
    ("status", VStr "draft");
    ("visibility", VStr "private") ].

(** Identifiers of the closed examples: [id1] and [id2] denote [oid1]
    and [oid2]; [id3] denotes an identifier that is never stored. *)
Definition id1 : string := "0000000000000000000000a1".
Definition id2 : string := "0000000000000000000000a2".
Definition id3 : string := "0000000000000000000000a3".

Definition oid1 : ObjectId := 161%N.
Definition oid2 : ObjectId := 162%N.

Definition postIntro : Request := {| param := ""; body := introCourse |}.

(** The store after the course has been created under [oid1]. *)
Definition courseDb : Db := store (@postCourse reference oid1 postIntro emptyDb).

Definition quizPayload : object :=
  [ ("courseId", VStr id3);
    ("questions",
      VArr [ VObj [ ("question", VStr "2 + 2");
                    ("options", VArr [VStr "3"; VStr "4"]);
                    ("correctAnswer", VStr "4") ] ]) ].

(** The store after a quiz of that course has been created under [oid2]. *)
Definition quizDb : Db :=
  store (@postQuiz reference oid2 {| param := id1; body := quizPayload |} courseDb).

(** The required fields of a course, as the specification lists them. *)
Definition requiredFields : list string :=
  [ "category"; "title"; "description"; "duration"; "instructorName";
    "language"; "level"; "price"; "status"; "visibility" ].

(** The invariant of a course record, as the specification states it:
    every required field is present and not null, the status is
    "published" or "draft" and the visibility is "public" or "private". *)
Definition present (k : string) (o : object) : bool :=
  match obj_get k o with
  | None | Some VNull => false
  | Some _ => true
  end.

Definition one_of (allowed : list string) (k : string) (o : object) : bool :=
  match obj_get k o with
  | Some (VStr s) => existsb (String.eqb s) allowed
  | _ => false
  end.

Definition courseInvariant (course : object) : bool :=
  forallb (fun k => present k course) requiredFields
  && one_of ["published"; "draft"] "status" course
  && one_of ["public"; "private"] "visibility" course.

(** A field that the body does not have, or has as null. *)
Definition missing (k : string) (o : object) : Prop :=
  obj_get k o = None \/ obj_get k o = Some VNull.

(** ** The list routes *)

(** [res.json(docs)] for an array of documents, or
    [res.json({ error: ... })]. *)
Inductive ListJson : Type :=
  | DocList (docs : list object)
  | ListError (t : Text).

Record ListResponse : Type := {
  list_status : nat;
  list_json : ListJson
}.

(** The documents of a collection, in the order the store returns them,
    which is not specified. *)
Definition documents (c : Collection) (db : Db) : list object :=
  snd <$> map_to_list (collection c db).

(** Whether the document has the ObjectId under the path. *)
Definition has_id (path : string) (o : ObjectId) (doc : object) : bool :=
  match obj_get path doc with
  | Some (VOid o') => N.eqb o' o
  | _ => false
  end.

Section Listing.
Context `{Conversions}.

(** [await Model.find()]: a read of the whole collection. *)
Definition find (m : Model) (db : Db) : Error + list object :=
  inr (documents (coll m) db).

(** [await Model.find({ path: id })] for an ObjectId path and a string:
    the condition is cast as the identifiers are, then the documents
    that have that ObjectId under the path are read. *)
Definition findWhere (m : Model) (path : string) (id : string) (db : Db)
    : Error + list object :=
  match castObjectId id with
  | None => inl (CastError path)
  | Some o => inr (List.filter (has_id path o) (documents (coll m) db))
  end.

(** [router.get('/api/courses', ...)] *)
Definition getCourses (req : Request) (db : Db) : ListResponse :=
  match find Course db with
  | inr courses => {| list_status := 200; list_json := DocList courses |}
  | inl err => {| list_status := 400; list_json := ListError (message err) |}
  end.

(** [router.get('/api/courses/:courseId/quizzes', ...)] *)
Definition getQuizzes (req : Request) (db : Db) : ListResponse :=
  match findWhere Quiz "courseId" (param req) db with
  | inr quizzes => {| list_status := 200; list_json := DocList quizzes |}
  | inl err => {| list_status := 400; list_json := ListError (message err) |}
  end.

(** ** The routers as a whole *)

(** The routes of [routes/courses.js] and [routes/quizzes.js]. *)
Inductive Endpoint : Type :=
  | PostCourse | GetCourses | GetCourse | PutCourse | DeleteCourse
  | PostQuiz | GetQuizzes | GetQuiz | PutQuiz | DeleteQuiz.

(** What the client gets: a response, or nothing when the promise of
    the handler is rejected. *)
Inductive Reply : Type :=
  | Single (r : Response)
  | Listing (r : ListResponse)
  | NoReply (err : Error).

Definition reply_of (out : Outcome Response) : Reply :=
  match result out with
  | inr r => Single r
  | inl err => NoReply err
  end.

Definition reply_status (r : Reply) : option nat :=
  match r with
  | Single r => Some (status r)
  | Listing r => Some (list_status r)
  | NoReply _ => None
  end.

(** One request served by its handler: the reply and the store after. *)
Definition serve (e : Endpoint) (gen : ObjectId) (req : Request) (db : Db) : Reply * Db :=
  let run (h : M Response) := (reply_of (h db), store (h db)) in
  match e with
  | PostCourse => run (postCourse gen req)
  | GetCourses => (Listing (getCourses req db), db)
  | GetCourse => run (getCourse req)
  | PutCourse => run (putCourse req)
  | DeleteCourse => run (deleteCourse req)
  | PostQuiz => run (postQuiz gen req)
  | GetQuizzes => (Listing (getQuizzes req db), db)
  | GetQuiz => run (getQuiz req)
  | PutQuiz => run (putQuiz req)
  | DeleteQuiz => run (deleteQuiz req)
  end.

(** The store after a sequence of requests. *)
Fixpoint serve_all (calls : list (Endpoint * ObjectId * Request)) (db : Db) : Db :=
  match calls with
  | [] => db
  | (e, gen, req) :: rest => serve_all rest (snd (serve e gen req db))
  end.

End Listing.

(** The collection that the routes of an endpoint write to. *)
Definition target (e : Endpoint) : Collection :=
  match e with
  | PostCourse | GetCourses | GetCourse | PutCourse | DeleteCourse => Courses
  | PostQuiz | GetQuizzes | GetQuiz | PutQuiz | DeleteQuiz => Quizzes
  end.

(** The status codes that the handler of an endpoint sends. *)
Definition statuses (e : Endpoint) : list nat :=
  match e with
  | PostCourse => [201; 400]
  | GetCourses => [200; 400]
  | GetCourse | PutCourse | DeleteCourse | GetQuiz | DeleteQuiz => [200; 404; 400]
  | PostQuiz => [201; 404; 400]
  | GetQuizzes => [200; 400]
  | PutQuiz => [200; 404; 500]
  end%nat.

(** Every document is stored under its own [_id]. *)
Definition keyed (db : Db) : Prop :=
  forall c id doc, collection c db !! id = Some doc -> obj_get "_id" doc = Some (VOid id).

(** ** Routing: app.js and the second bootstrap file

    A path is the list of its segments (non-empty, decoded). Literal
    segments of routes and mount paths are compared without regard to
    case, as the framework does by default; a parameter takes one
    segment. *)

(** The method of a request; [Other] is any method that is none of the
    six named ones (PATCH, TRACE, ...). *)
Inductive Method : Type := GET | HEAD | POST | PUT | DELETE | OPTIONS | Other (name : string).

(** Whether a route registered for [r] handles a request of method [m]:
    a route for GET also handles HEAD. *)
Definition handles (r m : Method) : bool :=
  match r, m with
  | GET, GET | GET, HEAD | POST, POST | PUT, PUT | DELETE, DELETE => true
  | _, _ => false
  end.

Inductive Segment : Type :=
  | Lit (s : string)
  | Param (name : string).

Definition lower_ascii (c : ascii) : ascii :=
  let n := N_of_ascii c in
  if (65 <=? n)%N && (n <=? 90)%N then ascii_of_N (n + 32) else c.

Fixpoint lower (s : string) : string :=
  match s with
  | EmptyString => EmptyString
  | String c rest => String (lower_ascii c) (lower rest)
  end.

Definition same_segment (a b : string) : bool := String.eqb (lower a) (lower b).

(** A route path against the whole of a request path: the value of the
    parameter of the route, or the empty string when it has none. *)
Fixpoint match_route (pattern : list Segment) (path : list string) : option string :=
  match pattern, path with
  | [], [] => Some ""
  | Lit s :: pattern', seg :: path' =>
      if same_segment s seg then match_route pattern' path' else None
  | Param _ :: pattern', seg :: path' =>
      match match_route pattern' path' with
      | Some _ => Some seg
      | None => None
      end
  | _, _ => None
  end.

(** A mount path against the beginning of a request path: the rest of
    the path, which is what the mounted router sees. *)
Fixpoint strip_mount (mount path : list string) : option (list string) :=
  match mount, path with
  | [], _ => Some path
  | s :: mount', seg :: path' =>
      if same_segment s seg then strip_mount mount' path' else None
  | _ :: _, [] => None
  end.

Definition Router := list (Method * list Segment * Endpoint).

(** [routes/courses.js] *)
Definition coursesRouter : Router :=
  [ (POST, [Lit "api"; Lit "courses"], PostCourse);
    (GET, [Lit "api"; Lit "courses"], GetCourses);
    (GET, [Lit "api"; Lit "courses"; Param "id"], GetCourse);
    (PUT, [Lit "api"; Lit "courses"; Param "id"], PutCourse);
    (DELETE, [Lit "api"; Lit "courses"; Param "id"], DeleteCourse) ].

(** [routes/quizzes.js] *)
Definition quizzesRouter : Router :=
  [ (POST, [Lit "api"; Lit "courses"; Param "courseId"; Lit "quizzes"], PostQuiz);
    (GET, [Lit "api"; Lit "courses"; Param "courseId"; Lit "quizzes"], GetQuizzes);
    (GET, [Lit "api"; Lit "quizzes"; Param "id"], GetQuiz);
    (PUT, [Lit "api"; Lit "quizzes"; Param "id"], PutQuiz);
    (DELETE, [Lit "api"; Lit "quizzes"; Param "id"], DeleteQuiz) ].

(** The first route of the router that has the method and matches. *)
Fixpoint route (r : Router) (m : Method) (path : list string) : option (Endpoint * string) :=
  match r with
  | [] => None
  | (m', pattern, e) :: rest =>
      if handles m' m then
        match match_route pattern path with
        | Some p => Some (e, p)
        | None => route rest m path
        end
      else route rest m path
  end.

(** [app.use(mount, router)], in order; a router that has no route for
    the request passes it on. *)
Fixpoint use (mounts : list (list string * Router)) (m : Method) (path : list string)
    : option (Endpoint * string) :=
  match mounts with
  | [] => None
  | (mount, r) :: rest =>
      match strip_mount mount path with
      | Some path' =>
          match route r m path' with
          | Some hit => Some hit
          | None => use rest m path
          end
      | None => use rest m path
      end
  end.

(** Where a request ends, for a request whose body the JSON parser
    lets through: the 204 with which [cors()] ends every OPTIONS
    request, the documentation pages, a route of a router with the value
    of its parameter, the welcome text of [app.get('/')], or the 404 of
    the framework.  The middleware runs in the order of the bootstrap
    files: [cors()], the documentation, the routers, the root route. *)
Inductive Dispatch : Type :=
  | Preflight
  | ApiDocs
  | Routed (e : Endpoint) (p : string)
  | Welcome
  | NotFound.

Definition dispatch (mounts : list (list string * Router)) (m : Method)
    (path : list string) : Dispatch :=
  match m with
  | OPTIONS => Preflight
  | _ =>
      match strip_mount ["api-docs"] path with
      | Some _ => ApiDocs
      | None =>
          match use mounts m path with
          | Some (e, p) => Routed e p
          | None =>
              match path with
              | [] => if handles GET m then Welcome else NotFound
              | _ :: _ => NotFound
              end
          end
      end
  end.

(** [app.use('/api/courses', coursesRoutes); app.use('/api/quizzes', quizzesRoutes)] *)
Definition app_js : list (list string * Router) :=
  [ (["api"; "courses"], coursesRouter); (["api"; "quizzes"], quizzesRouter) ].

(** [app.use('/api', courseRoutes); app.use('/api', quizRoutes)] in the
    second bootstrap file. *)
Definition app_alt : list (list string * Router) :=
  [ (["api"], coursesRouter); (["api"], quizzesRouter) ].

(** The method for which the route of an endpoint is registered. *)
Definition verb (e : Endpoint) : Method :=
  match e with
  | PostCourse | PostQuiz => POST
  | GetCourses | GetCourse | GetQuizzes | GetQuiz => GET
  | PutCourse | PutQuiz => PUT
  | DeleteCourse | DeleteQuiz => DELETE
  end.

(** The paths under which the route files document their routes. *)
Definition documented (path : list string) : Prop :=
  path = ["api"; "courses"]
  \/ (exists id, path = ["api"; "courses"; id])
  \/ (exists id, path = ["api"; "courses"; id; "quizzes"])
  \/ (exists id, path = ["api"; "quizzes"; id]).

(** What the handler of an endpoint may do to the store. *)
Inductive Kind : Type := Reads | Creates | Replaces | Removes.

Definition kind (e : Endpoint) : Kind :=
  match e with
  | GetCourses | GetCourse | GetQuizzes | GetQuiz => Reads
  | PostCourse | PostQuiz => Creates
  | PutCourse | PutQuiz => Replaces
  | DeleteCourse | DeleteQuiz => Removes
  end.

(** What serving one request does to the collection it targets: nothing,
    or one insertion under a free identifier (with 201), or the
    replacement or the removal of one stored document (with 200). *)
Inductive effect (k : Kind) (c : Collection) (db : Db) (code : nat) (db' : Db) : Prop :=
  | Unchanged :
      db' = db -> code <> 201%nat -> effect k c db code db'
  | Inserted id doc :
      k = Creates ->
      code = 201%nat ->
      collection c db !! id = None ->
      obj_get "_id" doc = Some (VOid id) ->
      db' = with_collection c (<[id := doc]> (collection c db)) db ->
      effect k c db code db'
  | Updated id doc doc' :
      k = Replaces ->
      code = 200%nat ->
      collection c db !! id = Some doc ->
      obj_get "_id" doc' = obj_get "_id" doc \/ obj_get "_id" doc' = Some (VOid id) ->
      db' = with_collection c (<[id := doc']> (collection c db)) db ->
      effect k c db code db'
  | Deleted id doc :
      k = Removes ->
      code = 200%nat ->
      collection c db !! id = Some doc ->
      db' = with_collection c (delete id (collection c db)) db ->
      effect k c db code db'.

(** * Properties *)

(** ** Objects *)

Lemma obj_get_set_eq k v o : obj_get k (obj_set k v o) = Some v.
Proof.
  induction o as [|[k' v'] o IH]; simpl.
  - now rewrite String.eqb_refl.
  - destruct (String.eqb k k') eqn:E; simpl; rewrite E; auto.
Qed.

Lemma obj_get_set_ne k k' v o : k <> k' -> obj_get k' (obj_set k v o) = obj_get k' o.
Proof.
  intros Hne. induction o as [|[k0 v0] o IH]; simpl.
  - destruct (String.eqb k' k) eqn:E; auto.
    apply String.eqb_eq in E. congruence.
  - destruct (String.eqb k k0) eqn:E; simpl.
    + apply String.eqb_eq in E. subst k0.
      destruct (String.eqb k' k) eqn:E'; auto.
      apply String.eqb_eq in E'. congruence.
    + now rewrite IH.
Qed.

Lemma obj_get_Some_In k v o : obj_get k o = Some v -> In (k, v) o.
Proof.
  induction o as [|[k' v'] o IH]; simpl; [discriminate|].
  destruct (String.eqb k k') eqn:E.
  - apply String.eqb_eq in E. intros [= ->]. subst. now left.
  - intros Hg. right. auto.
Qed.

(** [$set] on a document: the set paths take their new value, every
    other path keeps its own. *)
Lemma apply_set_lookup sets : forall doc k,
  List.NoDup (map fst sets) ->
  obj_get k (apply_set sets doc) =
    match obj_get k sets with Some v => Some v | None => obj_get k doc end.
Proof.
  unfold apply_set.
  induction sets as [|[k0 v0] sets IH]; intros doc k Hnd; simpl; [reflexivity|].
  inversion Hnd as [|? ? Hnotin Hnd']; subst.
  rewrite IH by assumption.
  destruct (String.eqb k k0) eqn:E.
  - apply String.eqb_eq in E. subst k0.
    destruct (obj_get k sets) eqn:Hg.
    + exfalso. apply Hnotin. apply obj_get_Some_In in Hg.
      change k with (fst (k, v)). now apply in_map.
    + simpl. apply obj_get_set_eq.
  - apply String.eqb_neq in E.
    destruct (obj_get k sets); [reflexivity|].
    simpl. apply obj_get_set_ne. congruence.
Qed.

Lemma schema_path_None_keys k (ps : Schema) :
  ~ In k (map fst ps) -> schema_path k ps = None.
Proof.
  induction ps as [|[k0 p0] ps IH]; simpl; [reflexivity|].
  intros Hn. destruct (String.eqb k k0) eqn:E.
  - apply String.eqb_eq in E. subst. tauto.
  - apply IH. tauto.
Qed.

(** ** The mapper *)

Section MapperFacts.
Context `{Conversions}.

(** What [new Model(body)] holds under each key. *)
Lemma build_lookup gen body k : forall ps,
  List.NoDup (map fst ps) ->
  obj_get k (fields (build gen ps body)) =
    match schema_path k ps with
    | None => None
    | Some p =>
        match obj_get k body with
        | None => defaultOf gen k p
        | Some v => cast (path_type p) v
        end
    end.
Proof.
  induction ps as [|[k0 p0] ps IH]; simpl; [reflexivity|].
  intros Hnd. inversion Hnd as [|? ? Hnotin Hnd']; subst.
  specialize (IH Hnd').
  destruct (String.eqb k k0) eqn:E.
  - apply String.eqb_eq in E. subst k0.
    rewrite (schema_path_None_keys _ _ Hnotin) in IH.
    destruct (obj_get k body) as [v|] eqn:Hb.
    + destruct (cast (path_type p0) v) eqn:Hc; simpl; [|assumption].
      now rewrite String.eqb_refl.
    + destruct (defaultOf gen k p0) eqn:Hd; simpl; [|assumption].
      now rewrite String.eqb_refl.
  - destruct (obj_get k0 body) as [v|] eqn:Hb.
    + destruct (cast (path_type p0) v) eqn:Hc; simpl; [|assumption].
      now rewrite E.
    + destruct (defaultOf gen k0 p0) eqn:Hd; simpl; [|assumption].
      now rewrite E.
Qed.

(** The cast errors of [new Model(body)] are the paths whose body value
    cannot be cast. *)
Lemma build_castErrors gen body k : forall ps,
  In k (castErrors (build gen ps body)) <->
  exists p v, In (k, p) ps /\ obj_get k body = Some v /\ cast (path_type p) v = None.
Proof.
  induction ps as [|[k0 p0] ps IH]; simpl.
  - split; [tauto|]. intros (p & w & [] & _).
  - destruct (obj_get k0 body) as [v0|] eqn:Hb.
    + destruct (cast (path_type p0) v0) as [c0|] eqn:Hc; simpl.
      * rewrite IH. split.
        -- intros (p & w & Hin & Hg & Hn). exists p, w. auto.
        -- intros (p & w & [Heq|Hin] & Hg & Hn).
           ++ inversion Heq; subst. congruence.
           ++ exists p, w. auto.
      * rewrite IH. split.
        -- intros [->|(p & w & Hin & Hg & Hn)].
           ++ exists p0, v0. auto.
           ++ exists p, w. auto.
        -- intros (p & w & [Heq|Hin] & Hg & Hn).
           ++ inversion Heq; subst. now left.
           ++ right. exists p, w. auto.
    + assert (Hsame : castErrors (match defaultOf gen k0 p0 with
                       | Some d0 => {| fields := (k0, d0) :: fields (build gen ps body);
                                      castErrors := castErrors (build gen ps body) |}
                       | None => build gen ps body end)
                      = castErrors (build gen ps body)) by now destruct (defaultOf gen k0 p0).
      rewrite Hsame, IH. split.
      * intros (p & w & Hin & Hg & Hn). exists p, w. auto.
      * intros (p & w & [Heq|Hin] & Hg & Hn).
        -- inversion Heq; subst. congruence.
        -- exists p, w. auto.
Qed.

(** A path of the schema that is not valid makes validation fail. *)
Lemma validate_invalid s d kp :
  In kp s -> validPath (fields d) kp = false -> validate s d <> [].
Proof.
  intros Hin Hv Hnil. unfold validate in Hnil.
  apply app_eq_nil in Hnil as [_ Hnil].
  apply map_eq_nil in Hnil.
  assert (Hf : In kp (List.filter (fun kp => negb (validPath (fields d) kp)) s)).
  { apply filter_In. split; [assumption|]. now rewrite Hv. }
  rewrite Hnil in Hf. destruct Hf.
Qed.

(** Validation passes exactly when nothing failed to cast and every
    path is valid. *)
Lemma validate_nil s d :
  validate s d = [] <->
  castErrors d = [] /\ forall kp, In kp s -> validPath (fields d) kp = true.
Proof.
  unfold validate. split.
  - intros Hnil. apply app_eq_nil in Hnil as [Hc Hnil]. split; [assumption|].
    apply map_eq_nil in Hnil. intros kp Hin.
    destruct (validPath (fields d) kp) eqn:Hv; [reflexivity|].
    assert (Hf : In kp (List.filter (fun kp => negb (validPath (fields d) kp)) s)).
    { apply filter_In. split; [assumption|]. now rewrite Hv. }
    rewrite Hnil in Hf. destruct Hf.
  - intros [Hc Hall]. rewrite Hc. simpl.
    induction s as [|kp s IH]; simpl; [reflexivity|].
    rewrite (Hall kp) by now left. simpl. apply IH. intros kp' Hin. apply Hall. now right.
Qed.

Lemma schema_path_In k p (ps : Schema) :
  List.NoDup (map fst ps) -> In (k, p) ps -> schema_path k ps = Some p.
Proof.
  induction ps as [|[k0 p0] ps IH]; simpl; [tauto|].
  intros Hnd [Heq|Hin].
  - inversion Heq; subst. now rewrite String.eqb_refl.
  - inversion Hnd as [|? ? Hnotin Hnd']; subst.
    destruct (String.eqb k k0) eqn:E.
    + apply String.eqb_eq in E. subst k0. exfalso. apply Hnotin.
      change k with (fst (k, p)). now apply in_map.
    + auto.
Qed.

(** A value of the declared type is stored as it is. *)
Lemma cast_typed t v : typed t v = true -> cast t v = Some v.
Proof.
  destruct t, v; simpl; try congruence.
  unfold number. intros Hn. apply negb_true_iff in Hn. now rewrite Hn.
Qed.


Lemma In_paths m k p : In (k, p) (schema m) -> In (k, p) (paths m).
Proof. intros Hin. right. apply in_or_app. now left. Qed.

(** A payload that the model accepts gives a valid document, under the
    generated identifier when it brings none. *)
Lemma new_validPayload m gen body :
  List.NoDup (map fst (paths m)) ->
  validPayload (schema m) body = true ->
  obj_get "_id" body = None ->
  obj_get "__v" body = None ->
  validate (schema m) (new_ m gen body) = []
  /\ obj_get "_id" (fields (new_ m gen body)) = Some (VOid gen).
Proof.
  intros Hnd Hvalid Hnoid Hnov. unfold validPayload in Hvalid.
  rewrite forallb_forall in Hvalid.
  assert (Hkey : forall k p, In (k, p) (schema m) -> String.eqb k "_id" = false).
  { intros k p Hin. apply String.eqb_neq. intros ->.
    inversion Hnd as [|? ? Hnotin _]; subst. apply Hnotin.
    change "_id" with (fst ("_id", p)). apply in_map. apply in_or_app. now left. }
  split.
  - apply validate_nil. split.
    + destruct (castErrors (new_ m gen body)) as [|k ks] eqn:Hce; [reflexivity|exfalso].
      assert (Hin : In k (castErrors (new_ m gen body))) by (rewrite Hce; now left).
      unfold new_ in Hin. apply build_castErrors in Hin.
      destruct Hin as (p & v & Hin & Hg & Hc).
      destruct Hin as [Heq|Hin]; [inversion Heq; subst; congruence|].
      apply in_app_or in Hin as [Hin|[Heq|[]]]; [|inversion Heq; subst; congruence].
      * specialize (Hvalid (k, p) Hin). cbn [fst snd] in Hvalid.
        rewrite Hg in Hvalid. unfold accepts in Hvalid.
        destruct (path_type p) eqn:Ht; cbn [cast] in Hc;
          try (apply andb_prop in Hvalid as [Hty _]; apply cast_typed in Hty;
               cbn [cast] in Hty; congruence);
          rewrite Hc in Hvalid; discriminate.
    + intros [k p] Hin. specialize (Hvalid (k, p) Hin). cbn [fst snd] in Hvalid.
      unfold validPath, new_. rewrite build_lookup by assumption.
      rewrite (schema_path_In k p (paths m)) by (auto; now apply In_paths).
      unfold defaultOf. rewrite (Hkey k p Hin). unfold accepts in Hvalid.
      destruct (obj_get k body) as [v|] eqn:Hg.
      * destruct (path_type p) eqn:Ht; cbn [cast];
          try (apply andb_prop in Hvalid as [Hty Hv]; apply cast_typed in Hty;
               cbn [cast] in Hty; now rewrite Hty);
          now destruct (castEmbedded _ v).
      * destruct (path_type p) eqn:Ht;
          try (apply validateEmbedded_empty; now destruct (path_required p));
          unfold validScalar; destruct (path_required p); try discriminate;
          now destruct (path_enum p).
  - unfold new_. rewrite build_lookup by assumption.
    cbn [schema_path paths idPath String.eqb Ascii.eqb Bool.eqb]. now rewrite Hnoid.
Qed.

(** What the cast update sets. *)
Lemma castUpdate_lookup update k : forall ps sets,
  List.NoDup (map fst ps) ->
  castUpdate ps update = inr sets ->
  obj_get k sets =
    match schema_path k ps with
    | None => None
    | Some p =>
        match obj_get k update with
        | None => None
        | Some v => cast (path_type p) v
        end
    end
  /\ (In k (map fst sets) -> In k (map fst ps)).
Proof.
  induction ps as [|[k0 p0] ps IH]; simpl; intros sets Hnd Hcu.
  - inversion Hcu; subst. simpl. tauto.
  - inversion Hnd as [|? ? Hnotin Hnd']; subst.
    destruct (obj_get k0 update) as [v0|] eqn:Hg0.
    + destruct (cast (path_type p0) v0) as [c0|] eqn:Hc0; [|discriminate].
      destruct (castUpdate ps update) as [e|sets0] eqn:Hrest; [discriminate|].
      inversion Hcu; subst sets. destruct (IH sets0 Hnd' eq_refl) as [IHl IHk].
      simpl. destruct (String.eqb k k0) eqn:E.
      * apply String.eqb_eq in E. subst k0. rewrite Hg0. split; auto.
      * split; [assumption|]. intros [Heq|Hin]; auto.
    + destruct (IH sets Hnd' Hcu) as [IHl IHk].
      destruct (String.eqb k k0) eqn:E.
      * apply String.eqb_eq in E. subst k0. rewrite Hg0.
        rewrite (schema_path_None_keys _ _ Hnotin) in IHl. split; auto.
      * split; auto.
Qed.

Lemma castUpdate_NoDup update : forall ps sets,
  List.NoDup (map fst ps) ->
  castUpdate ps update = inr sets ->
  List.NoDup (map fst sets).
Proof.
  induction ps as [|[k0 p0] ps IH]; simpl; intros sets Hnd Hcu.
  - inversion Hcu; subst. constructor.
  - inversion Hnd as [|? ? Hnotin Hnd']; subst.
    destruct (obj_get k0 update) as [v0|] eqn:Hg0; [|now apply IH].
    destruct (cast (path_type p0) v0) as [c0|] eqn:Hc0; [|discriminate].
    destruct (castUpdate ps update) as [e|sets0] eqn:Hrest; [discriminate|].
    inversion Hcu; subst sets. simpl. constructor; [|now apply IH].
    intros Hin. apply Hnotin.
    now apply (proj2 (castUpdate_lookup update k0 ps sets0 Hnd' Hrest)).
Qed.

End MapperFacts.

(** ** The handlers *)

Ltac run_handler :=
  unfold postCourse, getCourse, putCourse, deleteCourse,
         postQuiz, getQuiz, putQuiz, deleteQuiz,
         findById, findByIdAndUpdate, findByIdAndDelete, castCondition, lift,
         try_catch, bind, findOne, findOneAndUpdate, findOneAndDelete, ret, throw;
  cbn [result store trace coll schema Course Quiz collection with_collection
       new runValidators andb negb app param body].

Ltac eval_path :=
  cbn [schema_path paths Quiz Course schema idPath versionPath app quizSchema courseSchema
       String.eqb Ascii.eqb Bool.eqb path_type path_required path_enum field defaultOf].

Section HandlerFacts.
Context `{Conversions}.

(** The outcome of the lookups and deletions by a well-formed identifier. *)
Lemma getCourse_outcome req db o :
  castObjectId (param req) = Some o ->
  getCourse req db =
    {| result := inr match courses db !! o with
                     | Some course => {| status := 200; json := Doc course |}
                     | None => {| status := 404; json := ErrorBody (Literal "Course not found") |}
                     end;
       store := db; trace := [FindOne Courses o] |}.
Proof. intros Hcast. run_handler. rewrite Hcast. run_handler. now destruct (courses db !! o). Qed.

Lemma getQuiz_outcome req db o :
  castObjectId (param req) = Some o ->
  getQuiz req db =
    {| result := inr match quizzes db !! o with
                     | Some quiz => {| status := 200; json := Doc quiz |}
                     | None => {| status := 404; json := ErrorBody (Literal "Quiz not found") |}
                     end;
       store := db; trace := [FindOne Quizzes o] |}.
Proof. intros Hcast. run_handler. rewrite Hcast. run_handler. now destruct (quizzes db !! o). Qed.

Lemma deleteCourse_outcome req db o :
  castObjectId (param req) = Some o ->
  deleteCourse req db =
    {| result := inr match courses db !! o with
                     | Some _ => {| status := 200; json := MessageBody (Literal "Course deleted") |}
                     | None => {| status := 404; json := ErrorBody (Literal "Course not found") |}
                     end;
       store := {| courses := delete o (courses db); quizzes := quizzes db |};
       trace := [FindOneAndDelete Courses o] |}.
Proof. intros Hcast. run_handler. rewrite Hcast. run_handler. now destruct (courses db !! o). Qed.

Lemma deleteQuiz_outcome req db o :
  castObjectId (param req) = Some o ->
  deleteQuiz req db =
    {| result := inr match quizzes db !! o with
                     | Some _ => {| status := 200; json := MessageBody (Literal "Quiz deleted") |}
                     | None => {| status := 404; json := ErrorBody (Literal "Quiz not found") |}
                     end;
       store := {| courses := courses db; quizzes := delete o (quizzes db) |};
       trace := [FindOneAndDelete Quizzes o] |}.
Proof. intros Hcast. run_handler. rewrite Hcast. run_handler. now destruct (quizzes db !! o). Qed.

(** C8. Deleting an existing course answers 200 and removes that course
    and nothing else: every other course is kept and the quiz
    collection is the same as before, so the quizzes whose [courseId]
    names the deleted course are still there. *)
Theorem deleteCourse_removes_only_the_course req db o course :
  castObjectId (param req) = Some o ->
  courses db !! o = Some course ->
  let out := deleteCourse req db in
  result out = inr {| status := 200; json := MessageBody (Literal "Course deleted") |}
  /\ courses (store out) = delete o (courses db)
  /\ courses (store out) !! o = None
  /\ (forall o', o' <> o -> courses (store out) !! o' = courses db !! o')
  /\ quizzes (store out) = quizzes db
  /\ (forall q quiz, quizzes db !! q = Some quiz ->
        obj_get "courseId" quiz = Some (VOid o) ->
        quizzes (store out) !! q = Some quiz).
Proof.
  intros Hcast Hfound out. subst out.
  rewrite (deleteCourse_outcome req db o Hcast), Hfound. cbn [result store courses quizzes].
  repeat split; auto.
  - apply lookup_delete_eq.
  - intros o' Hne. now apply lookup_delete_ne.
Qed.

(** Every by-id handler but the quiz update answers 400 when the
    identifier cannot be cast; none of them reaches the store. *)
Lemma malformed_identifier_400 req db :
  castObjectId (param req) = None ->
  let bad := {| status := 400; json := ErrorBody (message (CastError "_id")) |} in
  getCourse req db = {| result := inr bad; store := db; trace := [] |}
  /\ putCourse req db = {| result := inr bad; store := db; trace := [] |}
  /\ deleteCourse req db = {| result := inr bad; store := db; trace := [] |}
  /\ getQuiz req db = {| result := inr bad; store := db; trace := [] |}
  /\ deleteQuiz req db = {| result := inr bad; store := db; trace := [] |}.
Proof.
  intros Hcast bad. subst bad.
  repeat split; run_handler; rewrite Hcast; reflexivity.
Qed.

(** The quiz update answers 500 in that case. *)
Lemma putQuiz_malformed_identifier req db :
  castObjectId (param req) = None ->
  putQuiz req db =
    {| result := inr {| status := 500; json := MessageBody (Literal "Server error") |};
       store := db; trace := [] |}.
Proof. intros Hcast. run_handler. rewrite Hcast. reflexivity. Qed.

(** How the update by identifier answers when no record has the
    identifier: the update is cast (and validated, when the options ask
    for it) before the store is asked. *)
Lemma findByIdAndUpdate_absent m id update options o db :
  castObjectId id = Some o ->
  collection (coll m) db !! o = None ->
  let out := findByIdAndUpdate m id update options db in
  store out = db
  /\ result out =
       match castUpdate (paths m) update with
       | inl e => inl e
       | inr sets =>
           if rejected m options sets
           then inl (ValidationError (map fst sets))
           else inr None
       end.
Proof.
  intros Hcast Habsent out. subst out. run_handler. rewrite Hcast. run_handler.
  destruct (castUpdate (paths m) update) as [e|[|kv sets]]; run_handler; [auto| |].
  - rewrite Habsent. auto.
  - unfold rejected.
    destruct (runValidators options && negb (updateValidators (schema m) (kv :: sets)));
      run_handler; [auto|].
    rewrite Habsent. auto.
Qed.

Lemma rejected_without_validators m options sets :
  runValidators options = false -> rejected m options sets = false.
Proof. intros Hoff. unfold rejected. rewrite Hoff. now destruct sets. Qed.

Lemma rejected_accepted m options sets :
  updateValidators (schema m) sets = true -> rejected m options sets = false.
Proof.
  intros Hok. unfold rejected. rewrite Hok. destruct sets; [reflexivity|].
  now destruct (runValidators options).
Qed.

(** C6, as the code has it. For a well-formed identifier that no record
    of the collection has: GET and DELETE answer 404; PUT answers 404
    when the payload is flat, its values can be cast and the update
    validators of the schema accept it; when a value cannot be cast PUT
    does not answer 404 (a course update answers 400). None of them
    changes the store. A second DELETE of a deleted record answers 404
    and changes nothing. *)
Theorem absent_identifier req db o :
  castObjectId (param req) = Some o ->
  (courses db !! o = None ->
     (result (getCourse req db) =
        inr {| status := 404; json := ErrorBody (Literal "Course not found") |}
      /\ store (getCourse req db) = db)
     /\ (result (deleteCourse req db) =
          inr {| status := 404; json := ErrorBody (Literal "Course not found") |}
        /\ store (deleteCourse req db) = db)
     /\ store (putCourse req db) = db
     /\ (forall sets, flat (body req) ->
          castUpdate (paths Course) (body req) = inr sets ->
          updateValidators courseSchema sets = true ->
          result (putCourse req db) =
            inr {| status := 404; json := ErrorBody (Literal "Course not found") |})
     /\ (forall e, castUpdate (paths Course) (body req) = inl e ->
          result (putCourse req db) =
            inr {| status := 400; json := ErrorBody (message e) |}))
  /\ (quizzes db !! o = None ->
     (result (getQuiz req db) =
        inr {| status := 404; json := ErrorBody (Literal "Quiz not found") |}
      /\ store (getQuiz req db) = db)
     /\ (result (deleteQuiz req db) =
          inr {| status := 404; json := ErrorBody (Literal "Quiz not found") |}
        /\ store (deleteQuiz req db) = db)
     /\ store (putQuiz req db) = db
     /\ (forall sets, flat (body req) ->
          castUpdate (paths Quiz) (body req) = inr sets ->
          updateValidators quizSchema sets = true ->
          result (putQuiz req db) =
            inr {| status := 404; json := MessageBody (Literal "Quiz not found") |})
     /\ (forall e, castUpdate (paths Quiz) (body req) = inl e ->
          exists r, result (putQuiz req db) = inr r /\ status r <> 404%nat))
  /\ (forall course, courses db !! o = Some course ->
       let db' := store (deleteCourse req db) in
       result (deleteCourse req db') =
         inr {| status := 404; json := ErrorBody (Literal "Course not found") |}
       /\ store (deleteCourse req db') = db')
  /\ (forall quiz, quizzes db !! o = Some quiz ->
       let db' := store (deleteQuiz req db) in
       result (deleteQuiz req db') =
         inr {| status := 404; json := ErrorBody (Literal "Quiz not found") |}
       /\ store (deleteQuiz req db') = db').
Proof.
  intros Hcast.
  assert (Hsame : forall d : Db, {| courses := courses d; quizzes := quizzes d |} = d)
    by now intros [].
  split; [|split; [|split]].
  - intros Habsent. split; [|split].
    + rewrite (getCourse_outcome req db o Hcast), Habsent. auto.
    + rewrite (deleteCourse_outcome req db o Hcast), Habsent. cbn [result store].
      split; [reflexivity|]. rewrite delete_id by assumption. apply Hsame.
    + destruct (findByIdAndUpdate_absent Course (param req) (body req)
                  {| new := true; runValidators := false |} o db Hcast Habsent)
        as [Hstore Hres].
      unfold putCourse, try_catch, bind.
      destruct (findByIdAndUpdate Course (param req) (body req) _ db) as [r s t].
      cbn [result store trace] in *. subst s r.
      destruct (castUpdate (paths Course) (body req)) as [e|sets];
        rewrite ?rejected_without_validators by reflexivity;
        cbn [result store trace ret]; split; auto;
        split; intros; congruence.
  - intros Habsent. split; [|split].
    + rewrite (getQuiz_outcome req db o Hcast), Habsent. auto.
    + rewrite (deleteQuiz_outcome req db o Hcast), Habsent. cbn [result store].
      split; [reflexivity|]. rewrite delete_id by assumption. apply Hsame.
    + destruct (findByIdAndUpdate_absent Quiz (param req) (body req)
                  {| new := true; runValidators := true |} o db Hcast Habsent)
        as [Hstore Hres].
      unfold putQuiz, try_catch, bind.
      destruct (findByIdAndUpdate Quiz (param req) (body req) _ db) as [r s t].
      cbn [result store trace] in *. subst s r.
      destruct (castUpdate (paths Quiz) (body req)) as [e|sets];
        cbn [result store trace ret].
      * split; [reflexivity|]. split; [intros; discriminate|].
        intros e' _. eexists. split; [reflexivity|]. cbn. discriminate.
      * destruct (rejected Quiz {| new := true; runValidators := true |} sets) eqn:Hrej;
          cbn [result store trace ret]; (split; [reflexivity|]);
          (split; [|intros; discriminate]);
          intros sets' _ [= <-] Hv'; [|reflexivity].
        rewrite (rejected_accepted Quiz _ sets Hv') in Hrej. discriminate.
  - intros course Hfound db'. subst db'.
    rewrite (deleteCourse_outcome req db o Hcast). cbn [store].
    rewrite (deleteCourse_outcome req _ o Hcast). cbn [result store courses quizzes].
    rewrite lookup_delete_eq. split; [reflexivity|].
    f_equal. apply delete_id, lookup_delete_eq.
  - intros quiz Hfound db'. subst db'.
    rewrite (deleteQuiz_outcome req db o Hcast). cbn [store].
    rewrite (deleteQuiz_outcome req _ o Hcast). cbn [result store courses quizzes].
    rewrite lookup_delete_eq. split; [reflexivity|].
    f_equal. apply delete_id, lookup_delete_eq.
Qed.

Lemma versioned_lookup doc k :
  obj_get k (versioned doc) = if String.eqb k "__v" then Some (VNum 0) else obj_get k doc.
Proof.
  unfold versioned. destruct (String.eqb k "__v") eqn:E.
  - apply String.eqb_eq in E. subst k. apply obj_get_set_eq.
  - apply String.eqb_neq in E. apply obj_get_set_ne. congruence.
Qed.

(** The inserted copy carries the identifier under which it is
    inserted, and is the document but for a null [_id]. *)
Lemma inserted_spec gen doc id copy :
  inserted gen doc = Some (id, copy) ->
  obj_get "_id" copy = Some (VOid id)
  /\ (forall k, k <> "_id" -> obj_get k copy = obj_get k doc)
  /\ ((obj_get "_id" doc = Some (VOid id) /\ copy = doc)
      \/ (obj_get "_id" doc = Some VNull /\ id = gen
          /\ copy = obj_set "_id" (VOid gen) doc)).
Proof.
  unfold inserted. destruct (obj_get "_id" doc) as [[| | | |o| |]|] eqn:Hid; try discriminate;
    intros [= <- <-].
  - split; [apply obj_get_set_eq|]. split; [|right; auto].
    intros k Hne. apply obj_get_set_ne. congruence.
  - auto.
Qed.

(** The outcome of [save]: either it throws and the store is as before,
    or the document is valid and its copy is inserted under an
    identifier that is free in the collection. *)
Lemma save_cases m gen d db :
  (exists e, result (save m gen d db) = inl e /\ store (save m gen d db) = db
             /\ forall op, In op (trace (save m gen d db)) ->
                  exists id, op = InsertOne (coll m) id)
  \/ (exists id copy, validate (schema m) d = []
        /\ inserted gen (versioned (fields d)) = Some (id, copy)
        /\ collection (coll m) db !! id = None
        /\ save m gen d db =
             {| result := inr (versioned (fields d));
                store := with_collection (coll m) (<[id := copy]> (collection (coll m) db)) db;
                trace := [InsertOne (coll m) id] |}).
Proof.
  unfold save. destruct (validate (schema m) d) as [|k ks] eqn:Hv.
  - destruct (inserted gen (versioned (fields d))) as [[id copy]|] eqn:Hins;
      [|left; eexists; cbn; repeat split; auto; intros op []].
    unfold bind, insertOne, ret. cbn [result store trace].
    destruct (collection (coll m) db !! id) eqn:Hfree; cbn [result store trace].
    + left. eexists. repeat split; auto. intros op [<-|[]]. eauto.
    + right. exists id, copy. repeat split; auto.
  - left. eexists. cbn. repeat split; auto. intros op [].
Qed.

Lemma save_valid m gen d db id :
  validate (schema m) d = [] ->
  obj_get "_id" (fields d) = Some (VOid id) ->
  collection (coll m) db !! id = None ->
  save m gen d db =
    {| result := inr (versioned (fields d));
       store := with_collection (coll m)
                  (<[id := versioned (fields d)]> (collection (coll m) db)) db;
       trace := [InsertOne (coll m) id] |}.
Proof.
  intros Hv Hid Hfree. unfold save, inserted. rewrite Hv, versioned_lookup. cbn [String.eqb Ascii.eqb Bool.eqb].
  rewrite Hid. unfold bind, insertOne, ret. cbn [result store trace]. rewrite Hfree. reflexivity.
Qed.

Lemma save_null m gen d db :
  validate (schema m) d = [] ->
  obj_get "_id" (fields d) = Some VNull ->
  collection (coll m) db !! gen = None ->
  save m gen d db =
    {| result := inr (versioned (fields d));
       store := with_collection (coll m)
                  (<[gen := obj_set "_id" (VOid gen) (versioned (fields d))]>
                     (collection (coll m) db)) db;
       trace := [InsertOne (coll m) gen] |}.
Proof.
  intros Hv Hid Hfree. unfold save, inserted. rewrite Hv, versioned_lookup.
  cbn [String.eqb Ascii.eqb Bool.eqb].
  rewrite Hid. unfold bind, insertOne, ret. cbn [result store trace]. rewrite Hfree. reflexivity.
Qed.

(** The quiz creation in terms of the [save] it ends with. *)
Lemma postQuiz_found gen req db o course :
  castObjectId (param req) = Some o ->
  courses db !! o = Some course ->
  let saved := save Quiz gen
                 (new_ Quiz gen (spread_with (body req) "courseId" (VStr (param req)))) db in
  postQuiz gen req db =
    {| result := inr match result saved with
                     | inl e => {| status := 400; json := ErrorBody (message e) |}
                     | inr quiz => {| status := 201; json := Doc quiz |}
                     end;
       store := store saved;
       trace := FindOne Courses o :: trace saved |}.
Proof.
  intros Hcast Hfound saved. subst saved. run_handler. rewrite Hcast. run_handler.
  rewrite Hfound. run_handler.
  destruct (save Quiz _ _ db) as [[e|quiz] s t]; cbn [result store trace app];
    now rewrite ?app_nil_r.
Qed.

Lemma quiz_paths_NoDup : List.NoDup (map fst (paths Quiz)).
Proof. repeat constructor; simpl; intuition discriminate. Qed.

Lemma course_paths_NoDup : List.NoDup (map fst (paths Course)).
Proof. repeat constructor; simpl; intuition discriminate. Qed.

(** C1, as the code has it. When no course has the identifier of the
    path, the quiz creation changes nothing in the store and sends it no
    write: it answers 404 when the identifier is well formed and 400
    when it is not. In every run, a write is sent only after the course
    has been read and found. *)
Theorem postQuiz_course_check gen req db :
  let out := postQuiz gen req db in
  (forall before op after,
     trace out = (before ++ op :: after)%list -> is_write op = true ->
     exists o course,
       castObjectId (param req) = Some o /\ courses db !! o = Some course
       /\ In (FindOne Courses o) before)
  /\ ((forall o, castObjectId (param req) = Some o -> courses db !! o = None) ->
      store out = db
      /\ (forall op, In op (trace out) -> is_write op = false)
      /\ result out =
           inr match castObjectId (param req) with
               | Some _ => {| status := 404; json := ErrorBody (Literal "Course not found") |}
               | None => {| status := 400; json := ErrorBody (message (CastError "_id")) |}
               end).
Proof.
  intros out. subst out.
  destruct (castObjectId (param req)) as [o|] eqn:Hcast.
  - destruct (courses db !! o) as [course|] eqn:Hfound.
    + rewrite (postQuiz_found gen req db o course Hcast Hfound). cbn [result store trace].
      split.
      * intros before op after Htrace Hw. exists o, course. repeat split; auto.
        destruct before as [|op0 before]; simpl in Htrace.
        -- injection Htrace as <- _. discriminate.
        -- injection Htrace as <- _. now left.
      * intros Hnone. specialize (Hnone o eq_refl). congruence.
    + assert (Hout : postQuiz gen req db =
               {| result := inr {| status := 404; json := ErrorBody (Literal "Course not found") |};
                  store := db; trace := [FindOne Courses o] |}).
      { run_handler. rewrite Hcast. run_handler. now rewrite Hfound. }
      rewrite Hout. cbn [result store trace]. split.
      * intros before op after Htrace Hw.
        destruct before as [|op0 [|op1 before]]; simpl in Htrace;
          try discriminate; injection Htrace as <-; discriminate.
      * intros _. repeat split; auto. intros op [<-|[]]. reflexivity.
  - assert (Hout : postQuiz gen req db =
             {| result := inr {| status := 400; json := ErrorBody (message (CastError "_id")) |};
                store := db; trace := [] |}).
    { run_handler. now rewrite Hcast. }
    rewrite Hout. cbn [result store trace]. split.
    + intros [|op0 before] op after Htrace; discriminate.
    + intros _. repeat split; auto. intros op [].
Qed.

Lemma built_quiz_courseId gen req o :
  castObjectId (param req) = Some o ->
  obj_get "courseId"
    (fields (new_ Quiz gen (spread_with (body req) "courseId" (VStr (param req))))) =
  Some (VOid o).
Proof.
  intros Hcast. unfold new_. rewrite build_lookup by apply quiz_paths_NoDup.
  eval_path. unfold spread_with. rewrite obj_get_set_eq.
  cbn [path_type field cast castId]. now rewrite Hcast.
Qed.

(** C10. When the course of the path exists, the quiz creation either
    is rejected with 400 and changes nothing, or answers 201 with a quiz
    and stores it under a free identifier, and the [courseId] of the
    quiz, as answered and as stored, is the identifier of the path,
    whatever [courseId] the body carries. The stored quiz is the
    answered one, but for a null [_id], in place of which the stored
    copy has the identifier it is stored under. The quiz is created,
    under the generated identifier, whenever the body is flat, its [_id]
    is absent or null, it brings no [__v], its questions are absent or
    accepted by the mapper, and the generated identifier is free. *)
Theorem postQuiz_courseId_from_path gen req db o course :
  castObjectId (param req) = Some o ->
  courses db !! o = Some course ->
  let out := postQuiz gen req db in
  ((exists err, result out = inr {| status := 400; json := ErrorBody (message err) |}
                /\ store out = db)
   \/ (exists id quiz stored,
         result out = inr {| status := 201; json := Doc quiz |}
         /\ quizzes db !! id = None
         /\ quizzes (store out) = <[id := stored]> (quizzes db)
         /\ courses (store out) = courses db
         /\ obj_get "courseId" quiz = Some (VOid o)
         /\ obj_get "courseId" stored = Some (VOid o)
         /\ obj_get "_id" stored = Some (VOid id)
         /\ (forall k, k <> "_id" -> obj_get k stored = obj_get k quiz)
         /\ (stored = quiz \/ obj_get "_id" quiz = Some VNull)))
  /\ (flat (body req) ->
      missing "_id" (body req) ->
      obj_get "__v" (body req) = None ->
      quizzes db !! gen = None ->
      accepts (field (DocumentArray_ questionSchema) false)
              (obj_get "questions" (body req)) = true ->
      exists quiz stored,
        result out = inr {| status := 201; json := Doc quiz |}
        /\ quizzes (store out) = <[gen := stored]> (quizzes db)
        /\ courses (store out) = courses db
        /\ obj_get "courseId" quiz = Some (VOid o)
        /\ obj_get "courseId" stored = Some (VOid o)
        /\ obj_get "_id" stored = Some (VOid gen)
        /\ (obj_get "_id" (body req) = None -> stored = quiz)).
Proof.
  intros Hcast Hfound out.
  set (built := new_ Quiz gen (spread_with (body req) "courseId" (VStr (param req)))).
  assert (HcourseId : obj_get "courseId" (versioned (fields built)) = Some (VOid o)).
  { rewrite versioned_lookup. cbn [String.eqb Ascii.eqb Bool.eqb].
    subst built. now apply built_quiz_courseId. }
  assert (Hbody : forall k, k <> "courseId" ->
            obj_get k (spread_with (body req) "courseId" (VStr (param req))) = obj_get k (body req)).
  { intros k Hne. unfold spread_with. apply obj_get_set_ne. congruence. }
  subst out. rewrite (postQuiz_found gen req db o course Hcast Hfound).
  fold built. cbn [result store trace].
  split.
  - destruct (save_cases Quiz gen built db)
      as [(e & Hres & Hstore & _)|(id & copy & Hv & Hins & Hfree & Hsave)].
    + left. exists e. now rewrite Hres, Hstore.
    + right. exists id, (versioned (fields built)), copy. rewrite Hsave.
      cbn [result store with_collection coll Quiz quizzes courses].
      destruct (inserted_spec gen _ id copy Hins) as (Hid & Hsame & Hcopy).
      repeat split; auto.
      * rewrite Hsame by discriminate. exact HcourseId.
      * destruct Hcopy as [[_ ->]|[Hnull _]]; auto.
  - intros _ Hnoid Hnov Hfree Hquestions.
    assert (Hid : obj_get "_id" (fields built) =
                    match obj_get "_id" (body req) with
                    | None => Some (VOid gen)
                    | Some _ => Some VNull
                    end).
    { subst built. unfold new_. rewrite build_lookup by apply quiz_paths_NoDup.
      eval_path.
      rewrite Hbody by discriminate. now destruct Hnoid as [-> | ->]. }
    assert (Hv : validate quizSchema built = []).
    { unfold accepts in Hquestions. cbn [path_type path_required field negb] in Hquestions.
      apply validate_nil. split.
      - destruct (castErrors built) as [|k ks] eqn:Hce; [reflexivity|exfalso].
        assert (Hin : In k (castErrors built)) by (rewrite Hce; now left).
        subst built. unfold new_ in Hin. apply build_castErrors in Hin.
        destruct Hin as (p & v & Hin & Hg & Hc).
        simpl in Hin. destruct Hin as [Hin|[Hin|[Hin|[Hin|[]]]]]; inversion Hin; subst k p.
        + rewrite Hbody in Hg by discriminate.
          destruct Hnoid as [Hnoid|Hnoid]; rewrite Hnoid in Hg; [discriminate|].
          injection Hg as <-. discriminate.
        + unfold spread_with in Hg. rewrite obj_get_set_eq in Hg. injection Hg as <-.
          cbn [path_type field cast castId] in Hc. rewrite Hcast in Hc. discriminate.
        + rewrite Hbody in Hg by discriminate. rewrite Hg in Hquestions.
          cbn [path_type field cast] in Hc. rewrite Hc in Hquestions. discriminate.
        + rewrite Hbody in Hg by discriminate. congruence.
      - intros kp Hin. simpl in Hin. destruct Hin as [<-|[<-|[]]].
        + unfold validPath. cbn [path_type field validScalar path_required path_enum].
          subst built. rewrite (built_quiz_courseId gen req o Hcast). reflexivity.
        + unfold validPath. cbn [path_type field].
          subst built. unfold new_. rewrite build_lookup by apply quiz_paths_NoDup.
          eval_path.
          rewrite Hbody by discriminate.
          destruct (obj_get "questions" (body req)) as [v|].
          * cbn [cast]. now destruct (castEmbedded _ v).
          * now apply validateEmbedded_empty. }
    destruct (obj_get "_id" (body req)) as [given|] eqn:Hgiven.
    + rewrite (save_null Quiz gen built db Hv Hid Hfree).
      cbn [result store with_collection coll Quiz quizzes courses].
      exists (versioned (fields built)), (obj_set "_id" (VOid gen) (versioned (fields built))).
      repeat split; auto; try discriminate.
      * rewrite obj_get_set_ne by discriminate. exact HcourseId.
      * apply obj_get_set_eq.
    + rewrite (save_valid Quiz gen built db gen Hv Hid Hfree).
      cbn [result store with_collection coll Quiz quizzes courses].
      exists (versioned (fields built)), (versioned (fields built)).
      repeat split; auto.
      rewrite versioned_lookup. cbn [String.eqb Ascii.eqb Bool.eqb]. exact Hid.
Qed.

(** The course creation in terms of the [save] it ends with. *)
Lemma postCourse_outcome gen req db :
  let saved := save Course gen (new_ Course gen (body req)) db in
  postCourse gen req db =
    {| result := inr match result saved with
                     | inl e => {| status := 400; json := ErrorBody (message e) |}
                     | inr course => {| status := 201; json := Doc course |}
                     end;
       store := store saved;
       trace := trace saved |}.
Proof.
  intros saved. subst saved. run_handler.
  destruct (save Course _ _ db) as [[e|course] s t]; cbn [result store trace app];
    now rewrite ?app_nil_r.
Qed.

(** The ten required fields are the required paths of the schema. *)
Lemma requiredFields_schema :
  requiredFields = map fst (List.filter (fun kp => path_required (snd kp)) courseSchema).
Proof. reflexivity. Qed.

Lemma required_course_path k :
  In k requiredFields ->
  exists t allowed,
    In (k, Path t true allowed) courseSchema
    /\ (t = String_ \/ t = Number_)
    /\ String.eqb k "_id" = false.
Proof.
  unfold requiredFields. simpl.
  intros Hin.
  repeat (destruct Hin as [<-|Hin];
          [eexists; eexists; split;
           [unfold courseSchema, field; simpl; eauto 15 | split; [eauto|reflexivity]]|]).
  destruct Hin.
Qed.

(** C5. A course payload in which a required field is absent (or null)
    is answered 400 with the validation error; nothing is sent to the
    store and both collections are as before. *)
Theorem postCourse_missing_required gen req db k :
  In k requiredFields ->
  missing k (body req) ->
  exists failed,
    postCourse gen req db =
      {| result := inr {| status := 400;
                          json := ErrorBody (message (ValidationError failed)) |};
         store := db;
         trace := [] |}.
Proof.
  intros Hreq Hmiss.
  destruct (required_course_path k Hreq) as (t & allowed & Hin & Ht & Hk).
  assert (Hinvalid : validPath (fields (new_ Course gen (body req))) (k, Path t true allowed) = false).
  { unfold validPath, new_. rewrite build_lookup by apply course_paths_NoDup.
    rewrite (schema_path_In k (Path t true allowed) (paths Course))
      by (try apply course_paths_NoDup; now apply (In_paths Course)).
    unfold defaultOf. rewrite Hk. cbn [path_type].
    destruct Hmiss as [-> | ->]; destruct Ht as [-> | ->]; reflexivity. }
  pose proof (validate_invalid courseSchema _ _ Hin Hinvalid) as Hne.
  rewrite postCourse_outcome. unfold save. cbn [schema Course].
  destruct (validate courseSchema (new_ Course gen (body req))) as [|f fs]; [congruence|].
  exists (f :: fs). reflexivity.
Qed.

(** A payload that the course model accepts is stored under the
    generated identifier. *)
Lemma postCourse_validPayload gen req db :
  validPayload courseSchema (body req) = true ->
  obj_get "_id" (body req) = None ->
  obj_get "__v" (body req) = None ->
  courses db !! gen = None ->
  let course := versioned (fields (new_ Course gen (body req))) in
  postCourse gen req db =
    {| result := inr {| status := 201; json := Doc course |};
       store := {| courses := <[gen := course]> (courses db); quizzes := quizzes db |};
       trace := [InsertOne Courses gen] |}.
Proof.
  intros Hvalid Hnoid Hnov Hfree course.
  destruct (new_validPayload Course gen (body req) course_paths_NoDup Hvalid Hnoid Hnov)
    as [Hv Hid].
  rewrite postCourse_outcome.
  now rewrite (save_valid Course gen _ db gen Hv Hid Hfree).
Qed.



(** What the stored course holds: see [build_lookup]. For an accepted
    payload the scalar fields are the submitted values. *)
Lemma accepted_field_kept gen body k p :
  validPayload courseSchema body = true ->
  In (k, p) courseSchema ->
  k <> "chapters" ->
  obj_get k (fields (new_ Course gen body)) = obj_get k body.
Proof.
  intros Hvalid Hin Hne. unfold validPayload in Hvalid. rewrite forallb_forall in Hvalid.
  specialize (Hvalid (k, p) Hin). cbn [fst snd] in Hvalid.
  unfold new_. rewrite build_lookup by apply course_paths_NoDup.
  rewrite (schema_path_In k p (paths Course))
    by (try apply course_paths_NoDup; now apply (In_paths Course)).
  assert (Hscalar : (path_type p = String_ \/ path_type p = Number_)
                    /\ path_required p = true /\ String.eqb k "_id" = false).
  { simpl in Hin.
    repeat (destruct Hin as [Heq|Hin]; [inversion Heq; subst; auto; congruence|]).
    destruct Hin. }
  destruct Hscalar as (Ht & Hr & Hk). unfold accepts in Hvalid.
  destruct (obj_get k body) as [v|].
  - destruct Ht as [Ht|Ht]; rewrite Ht in *;
      apply andb_prop in Hvalid as [Hty _]; now apply cast_typed.
  - destruct Ht as [Ht|Ht]; rewrite Ht, Hr in Hvalid; discriminate.
Qed.

Lemma course_path_not_version k p : In (k, p) courseSchema -> k <> "__v".
Proof.
  intros Hin ->. simpl in Hin.
  repeat (destruct Hin as [Heq|Hin]; [discriminate Heq|]). destruct Hin.
Qed.

(** C3, as the code has it. For a flat course payload that the model
    accepts as it is, that brings no [_id] and no [__v], with a
    generated identifier that is free: POST answers 201 with a record,
    and GET by an identifier that denotes the generated one answers 200
    with the same record. The record holds the generated identifier,
    the version key [__v] with 0, every scalar field of the schema as
    submitted, the chapters as the mapper casts them (the empty list
    when the payload has none), and nothing under any other key: keys
    that the model does not declare are not stored. *)
Theorem postCourse_then_getCourse gen req get db :
  flat (body req) ->
  validPayload courseSchema (body req) = true ->
  obj_get "_id" (body req) = None ->
  obj_get "__v" (body req) = None ->
  courses db !! gen = None ->
  castObjectId (param get) = Some gen ->
  exists course,
    result (postCourse gen req db) = inr {| status := 201; json := Doc course |}
    /\ result (getCourse get (store (postCourse gen req db))) =
         inr {| status := 200; json := Doc course |}
    /\ obj_get "_id" course = Some (VOid gen)
    /\ obj_get "__v" course = Some (VNum 0)
    /\ (forall k p, In (k, p) courseSchema -> k <> "chapters" ->
          obj_get k course = obj_get k (body req))
    /\ obj_get "chapters" course =
         match obj_get "chapters" (body req) with
         | None => Some (VArr [])
         | Some v => castEmbedded (DocumentArray_ chapterSchema) v
         end
    /\ (forall k, schema_path k (paths Course) = None -> obj_get k course = None).
Proof.
  intros _ Hvalid Hnoid Hnov Hfree Hget.
  exists (versioned (fields (new_ Course gen (body req)))).
  rewrite (postCourse_validPayload gen req db Hvalid Hnoid Hnov Hfree). cbn [result store].
  rewrite (getCourse_outcome get _ gen Hget). cbn [result courses].
  rewrite lookup_insert_eq.
  split; [reflexivity|]. split; [reflexivity|]. split; [|split; [|split; [|split]]].
  - rewrite versioned_lookup. cbn [String.eqb Ascii.eqb Bool.eqb].
    apply (new_validPayload Course gen (body req) course_paths_NoDup Hvalid Hnoid Hnov).
  - rewrite versioned_lookup. reflexivity.
  - intros k p Hin Hne. rewrite versioned_lookup.
    pose proof (course_path_not_version k p Hin) as Hk. apply String.eqb_neq in Hk.
    rewrite Hk. now apply (accepted_field_kept gen (body req) k p).
  - rewrite versioned_lookup. cbn [String.eqb Ascii.eqb Bool.eqb].
    unfold new_. rewrite build_lookup by apply course_paths_NoDup. eval_path.
    reflexivity.
  - intros k Hnone. rewrite versioned_lookup.
    destruct (String.eqb k "__v") eqn:E.
    { apply String.eqb_eq in E. subst k. discriminate Hnone. }
    unfold new_. rewrite build_lookup by apply course_paths_NoDup. now rewrite Hnone.
Qed.



Lemma with_collection_id c db : with_collection c (collection c db) db = db.
Proof. now destruct c, db. Qed.

(** The update by the identifier of an existing record. *)
Lemma findByIdAndUpdate_found m id update options o db doc :
  castObjectId id = Some o ->
  collection (coll m) db !! o = Some doc ->
  findByIdAndUpdate m id update options db =
    match castUpdate (paths m) update with
    | inl e => {| result := inl e; store := db; trace := [] |}
    | inr sets =>
        if rejected m options sets
        then {| result := inl (ValidationError (map fst sets)); store := db; trace := [] |}
        else if changes_id o sets
        then {| result := inl ImmutableField; store := db;
                trace := [FindOneAndUpdate (coll m) o] |}
        else {| result := inr (Some (if new options then apply_set sets doc else doc));
                store := with_collection (coll m)
                           (<[o := apply_set sets doc]> (collection (coll m) db)) db;
                trace := [match sets with
                          | [] => FindOne (coll m) o
                          | _ :: _ => FindOneAndUpdate (coll m) o
                          end] |}
    end.
Proof.
  intros Hcast Hfound. run_handler. rewrite Hcast. run_handler.
  destruct (castUpdate (paths m) update) as [e|[|kv sets]]; run_handler; [reflexivity| |].
  - rewrite Hfound. cbn [rejected changes_id obj_get apply_set fold_left].
    rewrite insert_id by assumption. rewrite with_collection_id. now destruct (new options).
  - unfold rejected.
    destruct (runValidators options && negb (updateValidators (schema m) (kv :: sets)));
      run_handler; [reflexivity|].
    rewrite Hfound. now destruct (changes_id o (kv :: sets)).
Qed.

(** The record after a [$set]: the paths of the model that the payload
    names hold the cast of the payload's value, every other key holds
    what it held; a payload without [_id] does not touch the [_id]. *)
Lemma merged_lookup m update sets doc k :
  List.NoDup (map fst (paths m)) ->
  castUpdate (paths m) update = inr sets ->
  obj_get k (apply_set sets doc) =
    match schema_path k (paths m), obj_get k update with
    | Some p, Some v => cast (path_type p) v
    | _, _ => obj_get k doc
    end
  /\ (obj_get "_id" update = None -> forall o, changes_id o sets = false).
Proof.
  intros Hnd Hcu.
  pose proof (castUpdate_NoDup update _ _ Hnd Hcu) as Hnd'.
  rewrite apply_set_lookup by assumption.
  destruct (castUpdate_lookup update k _ _ Hnd Hcu) as [Hk _].
  destruct (castUpdate_lookup update "_id" _ _ Hnd Hcu) as [Hid _].
  split.
  - rewrite Hk.
    destruct (schema_path k (paths m)) as [p|] eqn:Hsp; [|reflexivity].
    destruct (obj_get k update) as [v|] eqn:Hgu; [|reflexivity].
    destruct (cast (path_type p) v) eqn:Hc; [reflexivity|exfalso].
    clear Hk Hid Hnd'. revert sets Hcu Hsp. generalize (paths m). clear Hnd.
    induction s as [|[k0 p0] ps IH]; simpl; [discriminate|].
    intros sets0 Hcu Hp.
    destruct (String.eqb k k0) eqn:E0.
    + apply String.eqb_eq in E0. subst k0. injection Hp as ->.
      rewrite Hgu in Hcu. rewrite Hc in Hcu. discriminate.
    + destruct (obj_get k0 update) as [v0|]; [|eauto].
      destruct (cast (path_type p0) v0); [|discriminate].
      destruct (castUpdate ps update) eqn:Hrest; [discriminate|eauto].
  - intros Hnoid o. unfold changes_id. rewrite Hid.
    cbn [schema_path paths idPath String.eqb Ascii.eqb Bool.eqb]. now rewrite Hnoid.
Qed.

(** C4, as the code has it. PUT by the identifier of an existing record,
    with a flat payload that brings no [_id], whose values can be cast
    and which the update validators of the schema accept, answers 200
    with the updated record and stores it in place of the old one: each
    path of the model (the paths of the schema and the version key
    [__v]) that the payload names holds the cast of the payload's value
    (the value itself when it has the declared type), every other key
    of the record holds what it held, and keys of the payload that the
    model does not declare are not stored. When a value cannot be cast,
    or the quiz validators reject an update that sets something, the
    record is not updated and the store is as before (a course update
    answers 400). *)
Theorem put_sets_supplied_fields req db o :
  castObjectId (param req) = Some o ->
  flat (body req) ->
  obj_get "_id" (body req) = None ->
  (forall course, courses db !! o = Some course ->
     (forall sets,
        castUpdate (paths Course) (body req) = inr sets ->
        updateValidators courseSchema sets = true ->
        exists course',
          result (putCourse req db) = inr {| status := 200; json := Doc course' |}
          /\ store (putCourse req db) =
               {| courses := <[o := course']> (courses db); quizzes := quizzes db |}
          /\ (forall k, obj_get k course' =
                 match schema_path k (paths Course), obj_get k (body req) with
                 | Some p, Some v => cast (path_type p) v
                 | _, _ => obj_get k course
                 end)
          /\ (forall k p v, schema_path k (paths Course) = Some p ->
                 obj_get k (body req) = Some v -> typed (path_type p) v = true ->
                 obj_get k course' = Some v))
     /\ (forall e,
          castUpdate (paths Course) (body req) = inl e ->
          result (putCourse req db) = inr {| status := 400; json := ErrorBody (message e) |}
          /\ store (putCourse req db) = db))
  /\ (forall quiz, quizzes db !! o = Some quiz ->
     (forall sets,
        castUpdate (paths Quiz) (body req) = inr sets ->
        updateValidators quizSchema sets = true ->
        exists quiz',
          result (putQuiz req db) = inr {| status := 200; json := Doc quiz' |}
          /\ store (putQuiz req db) =
               {| courses := courses db; quizzes := <[o := quiz']> (quizzes db) |}
          /\ (forall k, obj_get k quiz' =
                 match schema_path k (paths Quiz), obj_get k (body req) with
                 | Some p, Some v => cast (path_type p) v
                 | _, _ => obj_get k quiz
                 end)
          /\ (forall k p v, schema_path k (paths Quiz) = Some p ->
                 obj_get k (body req) = Some v -> typed (path_type p) v = true ->
                 obj_get k quiz' = Some v))
     /\ ((exists e, castUpdate (paths Quiz) (body req) = inl e)
         \/ (exists sets, castUpdate (paths Quiz) (body req) = inr sets
                          /\ sets <> []
                          /\ updateValidators quizSchema sets = false) ->
         store (putQuiz req db) = db
         /\ exists r, result (putQuiz req db) = inr r /\ status r <> 200%nat)).
Proof.
  intros Hcast _ Hnoid. split.
  - intros course Hfound. unfold putCourse, try_catch, bind.
    rewrite (findByIdAndUpdate_found Course (param req) (body req) _ o db course Hcast Hfound).
    destruct (castUpdate (paths Course) (body req)) as [e|sets] eqn:Hcu;
      cbn [result store trace].
    { split; [intros; discriminate|]. intros e' [= <-]. auto. }
    split; [|intros; discriminate]. intros sets' [= <-] _.
    rewrite rejected_without_validators by reflexivity.
    destruct (merged_lookup Course (body req) sets course "_id"
                course_paths_NoDup Hcu) as [_ Hchg].
    rewrite (Hchg Hnoid).
    cbn [result store trace new ret coll Course with_collection collection].
    exists (apply_set sets course). split; [reflexivity|]. split; [reflexivity|].
    assert (Hlook : forall k, obj_get k (apply_set sets course) =
              match schema_path k (paths Course), obj_get k (body req) with
              | Some p, Some v => cast (path_type p) v
              | _, _ => obj_get k course
              end).
    { intros k. apply (merged_lookup Course (body req) sets course k
                         course_paths_NoDup Hcu). }
    split; [assumption|].
    intros k p v Hp Hv Hty. rewrite Hlook, Hp, Hv. now apply cast_typed.
  - intros quiz Hfound. unfold putQuiz, try_catch, bind.
    rewrite (findByIdAndUpdate_found Quiz (param req) (body req) _ o db quiz Hcast Hfound).
    destruct (castUpdate (paths Quiz) (body req)) as [e|sets] eqn:Hcu;
      cbn [result store trace].
    { split; [intros; discriminate|]. intros _. split; [reflexivity|].
      eexists. split; [reflexivity|]. cbn. discriminate. }
    destruct (rejected Quiz {| new := true; runValidators := true |} sets) eqn:Hrej;
      cbn [result store trace].
    { split.
      - intros sets' [= <-] Hok. rewrite (rejected_accepted Quiz _ sets Hok) in Hrej.
        discriminate.
      - intros _. split; [reflexivity|]. eexists. split; [reflexivity|]. cbn. discriminate. }
    split.
    2:{ intros [[e He]|(sets' & [= <-] & Hne & Hv')]; [discriminate|].
        exfalso. unfold rejected in Hrej. destruct sets; [congruence|].
        cbn [runValidators andb schema Quiz] in Hrej. rewrite Hv' in Hrej. discriminate. }
    intros sets' [= <-] _.
    destruct (merged_lookup Quiz (body req) sets quiz "_id"
                quiz_paths_NoDup Hcu) as [_ Hchg].
    rewrite (Hchg Hnoid).
    cbn [result store trace new ret coll Quiz with_collection collection].
    exists (apply_set sets quiz). split; [reflexivity|]. split; [reflexivity|].
    assert (Hlook : forall k, obj_get k (apply_set sets quiz) =
              match schema_path k (paths Quiz), obj_get k (body req) with
              | Some p, Some v => cast (path_type p) v
              | _, _ => obj_get k quiz
              end).
    { intros k. apply (merged_lookup Quiz (body req) sets quiz k
                         quiz_paths_NoDup Hcu). }
    split; [assumption|].
    intros k p v Hp Hv' Hty. rewrite Hlook, Hp, Hv'. now apply cast_typed.
Qed.

End HandlerFacts.

(** ** The routers as a whole *)

Section RouterFacts.
Context `{Conversions}.

(** The update by identifier, for a model whose paths are distinct:
    either nothing is written, or the stored document is replaced by
    its [$set] and keeps its [_id]. *)
Lemma findByIdAndUpdate_effect m id update options db :
  List.NoDup (map fst (paths m)) ->
  let out := findByIdAndUpdate m id update options db in
  (store out = db /\ (forall doc, result out = inr (Some doc) -> False))
  \/ (exists o doc sets,
        castObjectId id = Some o
        /\ collection (coll m) db !! o = Some doc
        /\ castUpdate (paths m) update = inr sets
        /\ result out = inr (Some (if new options then apply_set sets doc else doc))
        /\ store out = with_collection (coll m)
                         (<[o := apply_set sets doc]> (collection (coll m) db)) db
        /\ (obj_get "_id" (apply_set sets doc) = obj_get "_id" doc
            \/ obj_get "_id" (apply_set sets doc) = Some (VOid o))).
Proof.
  intros Hnd out. subst out.
  destruct (castObjectId id) as [o|] eqn:Hcast.
  2:{ left. run_handler. rewrite Hcast. cbn. split; [reflexivity|discriminate]. }
  destruct (collection (coll m) db !! o) as [doc|] eqn:Hfound.
  2:{ left. destruct (findByIdAndUpdate_absent m id update options o db Hcast Hfound)
        as [Hstore Hres].
      split; [assumption|]. intros doc. rewrite Hres.
      destruct (castUpdate (paths m) update) as [err|sets]; [discriminate|].
      destruct (rejected m options sets);
        discriminate. }
  rewrite (findByIdAndUpdate_found m id update options o db doc Hcast Hfound).
  destruct (castUpdate (paths m) update) as [e|sets] eqn:Hcu.
  { left. cbn. split; [reflexivity|discriminate]. }
  destruct (rejected m options sets).
  { left. cbn. split; [reflexivity|discriminate]. }
  destruct (changes_id o sets) eqn:Hchg.
  { left. cbn. split; [reflexivity|discriminate]. }
  right. exists o, doc, sets. cbn [result store]. repeat split; auto.
  rewrite apply_set_lookup by (eapply castUpdate_NoDup; eauto).
  unfold changes_id in Hchg.
  destruct (obj_get "_id" sets) as [[]|]; try discriminate; [|now left].
  right. apply negb_false_iff, N.eqb_eq in Hchg. now subst.
Qed.

(** Serving a request: the handler answers with one of the status codes
    of its route and has one of the four effects on its collection. *)
Lemma serve_effect e gen req db :
  exists code,
    reply_status (fst (serve e gen req db)) = Some code
    /\ In code (statuses e)
    /\ effect (kind e) (target e) db code (snd (serve e gen req db)).
Proof.
  assert (Hsave : forall m d,
            (exists err, result (save m gen d db) = inl err /\ store (save m gen d db) = db)
            \/ (exists id copy, result (save m gen d db) = inr (versioned (fields d))
                  /\ collection (coll m) db !! id = None
                  /\ obj_get "_id" copy = Some (VOid id)
                  /\ store (save m gen d db) =
                       with_collection (coll m) (<[id := copy]> (collection (coll m) db)) db)).
  { intros m d.
    destruct (save_cases m gen d db) as [(err & Hr & Hs & _)|(id & copy & _ & Hins & Hfree & Hsv)].
    - left. eauto.
    - right. exists id, copy. rewrite Hsv.
      destruct (inserted_spec gen _ id copy Hins) as (Hid & _). auto. }
  assert (Hput : forall m options code404 (h : M Response) (bad : Error -> Response),
            List.NoDup (map fst (paths m)) ->
            h = try_catch
                  (bind (findByIdAndUpdate m (param req) (body req) options)
                     (fun doc => match doc with
                                 | None => ret code404
                                 | Some doc => ret {| status := 200; json := Doc doc |}
                                 end))
                  (fun err => ret (bad err)) ->
            status code404 = 404%nat ->
            (forall err, status (bad err) <> 201%nat) ->
            exists code, reply_status (reply_of (h db)) = Some code
              /\ (code = 200%nat \/ code = 404%nat \/ exists err, code = status (bad err))
              /\ effect Replaces (coll m) db code (store (h db))).
  { intros m options code404 h bad Hnd -> H404 Hbad.
    unfold try_catch, bind, reply_of.
    destruct (findByIdAndUpdate_effect m (param req) (body req) options db Hnd)
      as [[Hstore Hnone]|(o & doc & sets & Hc & Hf & Hcu & Hres & Hstore & Hid)].
    - destruct (findByIdAndUpdate m (param req) (body req) options db) as [[err|[doc|]] st tr];
        cbn [result store trace ret reply_status] in *.
      + eexists. split; [reflexivity|]. split; [eauto|]. apply Unchanged; auto.
      + exfalso. eapply Hnone. reflexivity.
      + eexists. split; [reflexivity|]. split; [rewrite H404; auto|].
        apply Unchanged; [assumption|]. rewrite H404. discriminate.
    - destruct (findByIdAndUpdate m (param req) (body req) options db) as [res st tr].
      cbn [result store trace] in *. subst res st. cbn [result store trace ret reply_status status].
      exists 200%nat. split; [reflexivity|]. split; [auto|].
      eapply Updated; eauto. }
  destruct e; cbn [serve fst snd target kind statuses reply_status].
  - (* POST /api/courses *)
    rewrite postCourse_outcome. unfold reply_of. cbn [result store].
    destruct (Hsave Course (new_ Course gen (body req)))
      as [(err & Hr & Hs)|(id & copy & Hr & Hfree & Hid & Hs)];
      rewrite Hr, Hs; cbn [reply_status status].
    + exists 400%nat. repeat split; [simpl; auto|]. now apply Unchanged.
    + exists 201%nat. repeat split; [simpl; auto|]. eapply Inserted; eauto.
  - (* GET /api/courses *)
    exists 200%nat. repeat split; [simpl; auto|]. now apply Unchanged.
  - (* GET /api/courses/:id *)
    destruct (castObjectId (param req)) as [o|] eqn:Hcast.
    + rewrite (getCourse_outcome req db o Hcast). unfold reply_of. cbn [result store reply_status].
      destruct (courses db !! o); eexists; (split; [reflexivity|]);
        (split; [simpl; auto|now apply Unchanged]).
    + destruct (malformed_identifier_400 req db Hcast) as (-> & _).
      exists 400%nat. repeat split; [simpl; auto|]. now apply Unchanged.
  - (* PUT /api/courses/:id *)
    destruct (Hput Course {| new := true; runValidators := false |}
                {| status := 404; json := ErrorBody (Literal "Course not found") |}
                (putCourse req)
                (fun err => {| status := 400; json := ErrorBody (message err) |})
                course_paths_NoDup eq_refl eq_refl ltac:(discriminate))
      as (code & Hcode & Hin & Heff).
    exists code. split; [assumption|]. split; [|assumption].
    destruct Hin as [->|[->|[err ->]]]; simpl; auto.
  - (* DELETE /api/courses/:id *)
    destruct (castObjectId (param req)) as [o|] eqn:Hcast.
    + rewrite (deleteCourse_outcome req db o Hcast). unfold reply_of. cbn [result store reply_status].
      destruct (courses db !! o) as [doc|] eqn:Hfound; eexists; (split; [reflexivity|]);
        (split; [simpl; auto|]).
      * eapply Deleted; eauto.
      * apply Unchanged; [|discriminate]. rewrite delete_id by assumption. now destruct db.
    + destruct (malformed_identifier_400 req db Hcast) as (_ & _ & -> & _).
      exists 400%nat. repeat split; [simpl; auto|]. now apply Unchanged.
  - (* POST /api/courses/:courseId/quizzes *)
    destruct (castObjectId (param req)) as [o|] eqn:Hcast.
    + destruct (courses db !! o) as [course|] eqn:Hfound.
      * rewrite (postQuiz_found gen req db o course Hcast Hfound).
        unfold reply_of. cbn [result store].
        destruct (Hsave Quiz (new_ Quiz gen (spread_with (body req) "courseId" (VStr (param req)))))
          as [(err & Hr & Hs)|(id & copy & Hr & Hfree & Hid & Hs)];
          rewrite Hr, Hs; cbn [reply_status status].
        -- exists 400%nat. repeat split; [simpl; auto|]. now apply Unchanged.
        -- exists 201%nat. repeat split; [simpl; auto|]. eapply Inserted; eauto.
      * assert (Hout : postQuiz gen req db =
                  {| result := inr {| status := 404; json := ErrorBody (Literal "Course not found") |};
                     store := db; trace := [FindOne Courses o] |}).
        { run_handler. rewrite Hcast. run_handler. now rewrite Hfound. }
        rewrite Hout. exists 404%nat. repeat split; [simpl; auto|]. now apply Unchanged.
    + assert (Hout : postQuiz gen req db =
                {| result := inr {| status := 400; json := ErrorBody (message (CastError "_id")) |};
                   store := db; trace := [] |}).
      { run_handler. now rewrite Hcast. }
      rewrite Hout. exists 400%nat. repeat split; [simpl; auto|]. now apply Unchanged.
  - (* GET /api/courses/:courseId/quizzes *)
    unfold getQuizzes, findWhere.
    destruct (castObjectId (param req)); eexists; (split; [reflexivity|]);
      (split; [simpl; auto|now apply Unchanged]).
  - (* GET /api/quizzes/:id *)
    destruct (castObjectId (param req)) as [o|] eqn:Hcast.
    + rewrite (getQuiz_outcome req db o Hcast). unfold reply_of. cbn [result store reply_status].
      destruct (quizzes db !! o); eexists; (split; [reflexivity|]);
        (split; [simpl; auto|now apply Unchanged]).
    + destruct (malformed_identifier_400 req db Hcast) as (_ & _ & _ & -> & _).
      exists 400%nat. repeat split; [simpl; auto|]. now apply Unchanged.
  - (* PUT /api/quizzes/:id *)
    destruct (Hput Quiz {| new := true; runValidators := true |}
                {| status := 404; json := MessageBody (Literal "Quiz not found") |}
                (putQuiz req)
                (fun _ => {| status := 500; json := MessageBody (Literal "Server error") |})
                quiz_paths_NoDup eq_refl eq_refl ltac:(discriminate))
      as (code & Hcode & Hin & Heff).
    exists code. split; [assumption|]. split; [|assumption].
    destruct Hin as [->|[->|[err ->]]]; simpl; auto.
  - (* DELETE /api/quizzes/:id *)
    destruct (castObjectId (param req)) as [o|] eqn:Hcast.
    + rewrite (deleteQuiz_outcome req db o Hcast). unfold reply_of. cbn [result store reply_status].
      destruct (quizzes db !! o) as [doc|] eqn:Hfound; eexists; (split; [reflexivity|]);
        (split; [simpl; auto|]).
      * eapply Deleted; eauto.
      * apply Unchanged; [|discriminate]. rewrite delete_id by assumption. now destruct db.
    + destruct (malformed_identifier_400 req db Hcast) as (_ & _ & _ & _ & ->).
      exists 400%nat. repeat split; [simpl; auto|]. now apply Unchanged.
Qed.

(** X1. Every request is answered: no handler lets its promise be
    rejected, and the status is one of those its route sends. So no
    course route ever answers 500, and the quiz update never answers
    400. *)
Theorem serve_answers e gen req db :
  exists code,
    reply_status (fst (serve e gen req db)) = Some code
    /\ In code (statuses e)
    /\ (target e = Courses -> code <> 500%nat)
    /\ (e = PutQuiz -> code <> 400%nat).
Proof.
  destruct (serve_effect e gen req db) as (code & Hcode & Hin & _).
  exists code. split; [assumption|]. split; [assumption|]. split.
  - intros Ht. destruct e; try discriminate; simpl in Hin;
      intuition (subst; discriminate).
  - intros ->. simpl in Hin. intuition (subst; discriminate).
Qed.

(** X2. A request that is answered with an error status (400 or above)
    leaves the store exactly as it was. *)
Theorem error_leaves_store e gen req db code :
  reply_status (fst (serve e gen req db)) = Some code ->
  (400 <= code)%nat ->
  snd (serve e gen req db) = db.
Proof.
  intros Hcode Hge.
  destruct (serve_effect e gen req db) as (code' & Hcode' & _ & Heff).
  rewrite Hcode in Hcode'. injection Hcode' as <-.
  destruct Heff as [Hsame _|id doc _ -> |id doc doc' _ -> |id doc _ ->]; try assumption;
    exfalso; revert Hge; clear; intros Hge;
    repeat (apply le_S_n in Hge); inversion Hge.
Qed.

(** X3. A route writes to one collection only: the course routes never
    change the quiz collection (there is no cascade of any kind), and
    the quiz routes never change the course collection. *)
Theorem other_collection_kept e gen req db c :
  c <> target e ->
  collection c (snd (serve e gen req db)) = collection c db.
Proof.
  intros Hne.
  destruct (serve_effect e gen req db) as (code & _ & _ & Heff).
  destruct Heff as [-> _|id doc _ _ _ _ -> |id doc doc' _ _ _ _ -> |id doc _ _ _ ->];
    try reflexivity; destruct c, (target e); try congruence; reflexivity.
Qed.

(** X4. What a request does to the identifiers of its collection. A
    read or an update leaves the set of identifiers as it is (an update
    never creates a record); a creation adds exactly one identifier,
    which was free, when it answers 201 and none otherwise; a deletion
    removes the identifier of the path and no other. *)
Theorem identifiers_after e gen req db :
  let before := collection (target e) db in
  let after := collection (target e) (snd (serve e gen req db)) in
  match kind e with
  | Reads | Replaces => dom after = dom before
  | Creates =>
      (reply_status (fst (serve e gen req db)) = Some 201%nat
       /\ exists id, (id ∉ dom before) /\ dom after = ({[id]} ∪ dom before)
                      /\ size after = S (size before))
      \/ (reply_status (fst (serve e gen req db)) <> Some 201%nat /\ after = before)
  | Removes =>
      match castObjectId (param req) with
      | Some o => dom after = dom before ∖ {[o]}
      | None => after = before
      end
  end.
Proof.
  intros before after. subst before after.
  destruct (serve_effect e gen req db) as (code & Hcode & Hin & Heff).
  assert (Hwith : forall docs, collection (target e) (with_collection (target e) docs db) = docs).
  { intros docs. now destruct (target e). }
  destruct (kind e) eqn:Hk.
  - destruct Heff as [-> _| | |]; congruence.
  - rewrite Hcode.
    destruct Heff as [-> Hne|id doc _ -> Hfree _ ->| |]; try congruence.
    + right. split; [congruence|reflexivity].
    + left. split; [reflexivity|]. exists id. rewrite Hwith.
      split; [now apply not_elem_of_dom|]. split; [apply dom_insert_L|].
      now apply map_size_insert_None.
  - destruct Heff as [-> _| |id doc doc' _ _ Hfound _ ->|]; try congruence.
    rewrite Hwith. apply dom_insert_lookup_L. eauto.
  - destruct e; try discriminate; cbn [serve snd target].
    + destruct (castObjectId (param req)) as [o|] eqn:Hcast.
      * rewrite (deleteCourse_outcome req db o Hcast). cbn [store collection courses].
        apply dom_delete_L.
      * now destruct (malformed_identifier_400 req db Hcast) as (_ & _ & -> & _).
    + destruct (castObjectId (param req)) as [o|] eqn:Hcast.
      * rewrite (deleteQuiz_outcome req db o Hcast). cbn [store collection quizzes].
        apply dom_delete_L.
      * now destruct (malformed_identifier_400 req db Hcast) as (_ & _ & _ & _ & ->).
Qed.

Lemma serve_keeps_keyed e gen req db :
  keyed db -> keyed (snd (serve e gen req db)).
Proof.
  intros Hkeyed.
  destruct (serve_effect e gen req db) as (code & _ & _ & Heff).
  assert (Hcases : forall c' docs id' doc',
            collection c' (with_collection (target e) docs db) !! id' = Some doc' ->
            (c' = target e /\ docs !! id' = Some doc')
            \/ collection c' db !! id' = Some doc').
  { intros c' docs id' doc'. destruct c', (target e); cbn; auto. }
  destruct Heff as [-> _|id doc _ _ _ Hid ->|id doc doc' _ _ Hfound Hid ->|id doc _ _ _ ->];
    [assumption| | |]; intros c' id' d' Hlook;
    apply Hcases in Hlook as [[-> Hlook]|Hlook]; eauto.
  - destruct (decide (id = id')) as [->|Hne].
    + rewrite lookup_insert_eq in Hlook. now injection Hlook as <-.
    + rewrite lookup_insert_ne in Hlook by assumption. eauto.
  - destruct (decide (id = id')) as [->|Hne].
    + rewrite lookup_insert_eq in Hlook. injection Hlook as <-.
      destruct Hid as [Hid|Hid]; [|assumption]. rewrite Hid. eauto.
    + rewrite lookup_insert_ne in Hlook by assumption. eauto.
  - destruct (decide (id = id')) as [->|Hne].
    + rewrite lookup_delete_eq in Hlook. discriminate.
    + rewrite lookup_delete_ne in Hlook by assumption. eauto.
Qed.

Lemma serve_all_keyed calls : forall db, keyed db -> keyed (serve_all calls db).
Proof.
  induction calls as [|[[e gen] req] calls IH]; intros db Hkeyed; simpl; [assumption|].
  apply IH. now apply serve_keeps_keyed.
Qed.

(** X5. After every sequence of requests that starts from the empty
    store, each document of either collection is stored under its own
    [_id]: a creation stores the document under the identifier it
    carries, and an update cannot change the [_id] of a document. *)
Theorem reachable_store_keyed calls : keyed (serve_all calls emptyDb).
Proof.
  apply serve_all_keyed. intros c id doc Hlook.
  destruct c; cbn in Hlook; rewrite lookup_empty in Hlook; discriminate.
Qed.

(** ** How the requests compose *)

Lemma obj_set_same k v o : obj_get k o = Some v -> obj_set k v o = o.
Proof.
  induction o as [|[k' v'] o IH]; simpl; [discriminate|].
  destruct (String.eqb k k') eqn:E.
  - now intros [= ->].
  - intros Hg. now rewrite IH.
Qed.

Lemma obj_get_In_NoDup k v (o : object) :
  List.NoDup (map fst o) -> In (k, v) o -> obj_get k o = Some v.
Proof.
  induction o as [|[k' v'] o IH]; simpl; [tauto|].
  intros Hnd [Heq|Hin].
  - inversion Heq; subst. now rewrite String.eqb_refl.
  - inversion Hnd as [|? ? Hnotin Hnd']; subst.
    destruct (String.eqb k k') eqn:E; [|auto].
    apply String.eqb_eq in E. subst k'. exfalso. apply Hnotin.
    change k with (fst (k, v)). now apply in_map.
Qed.

(** Setting again what is already set changes nothing. *)
Lemma apply_set_idem sets doc :
  List.NoDup (map fst sets) ->
  apply_set sets (apply_set sets doc) = apply_set sets doc.
Proof.
  intros Hnd.
  assert (Hfixed : forall some d,
            (forall k v, In (k, v) some -> obj_get k d = Some v) -> apply_set some d = d).
  { unfold apply_set. induction some as [|[k v] some IH]; intros d Hall; simpl; [reflexivity|].
    rewrite obj_set_same by (apply Hall; now left).
    apply IH. intros k' v' Hin. apply Hall. now right. }
  apply Hfixed. intros k v Hin.
  rewrite apply_set_lookup by assumption.
  now rewrite (obj_get_In_NoDup k v sets Hnd Hin).
Qed.

Lemma collection_with c docs db : collection c (with_collection c docs db) = docs.
Proof. now destruct c. Qed.

Lemma with_collection_twice c docs docs' db :
  with_collection c docs (with_collection c docs' db) = with_collection c docs db.
Proof. now destruct c. Qed.

(** The update by identifier that returns the new document, run a
    second time on the store it left, does and answers the same. *)
Lemma findByIdAndUpdate_again m id update options db :
  List.NoDup (map fst (paths m)) ->
  new options = true ->
  findByIdAndUpdate m id update options
    (store (findByIdAndUpdate m id update options db)) =
  findByIdAndUpdate m id update options db.
Proof.
  intros Hnd Hnew.
  destruct (castObjectId id) as [o|] eqn:Hcast.
  2:{ assert (Hout : forall d, findByIdAndUpdate m id update options d =
                       {| result := inl (CastError "_id"); store := d; trace := [] |}).
      { intros d. run_handler. now rewrite Hcast. }
      now rewrite !Hout. }
  destruct (collection (coll m) db !! o) as [doc|] eqn:Hfound.
  2:{ destruct (findByIdAndUpdate_absent m id update options o db Hcast Hfound) as [-> _].
      reflexivity. }
  rewrite (findByIdAndUpdate_found m id update options o db doc Hcast Hfound).
  destruct (castUpdate (paths m) update) as [err|sets] eqn:Hcu.
  { cbn [store]. rewrite (findByIdAndUpdate_found m id update options o db doc Hcast Hfound).
    now rewrite Hcu. }
  destruct (rejected m options sets) eqn:Hv.
  { cbn [store]. rewrite (findByIdAndUpdate_found m id update options o db doc Hcast Hfound).
    now rewrite Hcu, Hv. }
  destruct (changes_id o sets) eqn:Hchg.
  { cbn [store]. rewrite (findByIdAndUpdate_found m id update options o db doc Hcast Hfound).
    now rewrite Hcu, Hv, Hchg. }
  cbn [store].
  rewrite (findByIdAndUpdate_found m id update options o _ (apply_set sets doc) Hcast)
    by (rewrite collection_with; apply lookup_insert_eq).
  rewrite Hcu, Hv, Hchg, Hnew.
  rewrite apply_set_idem by (eapply castUpdate_NoDup; eauto).
  rewrite collection_with, insert_insert_eq, with_collection_twice. reflexivity.
Qed.

(** X6. PUT of fields is idempotent: for a flat body, the same update
    sent again, on the store that the first one left, gives the same
    answer and leaves the same store, whatever the first answer was; for
    a course when the body brings no chapters, for a quiz when it brings
    no questions (the elements of those are cast anew by each update). *)
Theorem put_twice req db :
  flat (body req) ->
  (obj_get "chapters" (body req) = None ->
   putCourse req (store (putCourse req db)) = putCourse req db)
  /\ (obj_get "questions" (body req) = None ->
      putQuiz req (store (putQuiz req db)) = putQuiz req db).
Proof.
  intros _.
  assert (Hstore : forall m options (k : option object -> M Response) (h : Error -> M Response),
            (forall doc d, store (k doc d) = d) -> (forall err d, store (h err d) = d) ->
            store (try_catch (bind (findByIdAndUpdate m (param req) (body req) options) k) h db)
            = store (findByIdAndUpdate m (param req) (body req) options db)).
  { intros m options k h Hk Hh. unfold try_catch, bind.
    destruct (findByIdAndUpdate m (param req) (body req) options db) as [[err|doc] st tr];
      cbn [result store trace].
    - apply Hh.
    - destruct (result (k doc st)) eqn:Hr; cbn [store]; [rewrite Hh|]; apply Hk. }
  split.
  - set (db' := store (putCourse req db)).
    assert (Hdb' : db' = store (findByIdAndUpdate Course (param req) (body req)
                                   {| new := true; runValidators := false |} db)).
    { subst db'. unfold putCourse. apply Hstore; [intros [doc|] d|intros err d]; reflexivity. }
    unfold putCourse, try_catch, bind. rewrite Hdb'.
    now rewrite (findByIdAndUpdate_again Course _ _ {| new := true; runValidators := false |}
                   db course_paths_NoDup eq_refl).
  - set (db' := store (putQuiz req db)).
    assert (Hdb' : db' = store (findByIdAndUpdate Quiz (param req) (body req)
                                   {| new := true; runValidators := true |} db)).
    { subst db'. unfold putQuiz. apply Hstore; [intros [doc|] d|intros err d]; reflexivity. }
    unfold putQuiz, try_catch, bind. rewrite Hdb'.
    now rewrite (findByIdAndUpdate_again Quiz _ _ {| new := true; runValidators := true |}
                   db quiz_paths_NoDup eq_refl).
Qed.

(** A PUT that answers 200 has stored the document it answers with,
    under the identifier of the path. *)
Lemma put_answer_stored m options (notFound : Response) (bad : Error -> Response) req db doc :
  List.NoDup (map fst (paths m)) ->
  new options = true ->
  status notFound <> 200%nat ->
  (forall err, status (bad err) <> 200%nat) ->
  let out := try_catch
               (bind (findByIdAndUpdate m (param req) (body req) options)
                  (fun found => match found with
                                | None => ret notFound
                                | Some found => ret {| status := 200; json := Doc found |}
                                end))
               (fun err => ret (bad err)) db in
  result out = inr {| status := 200; json := Doc doc |} ->
  exists o, castObjectId (param req) = Some o
            /\ collection (coll m) (store out) !! o = Some doc.
Proof.
  intros Hnd Hnew Hnf Hbad out Hres. subst out. unfold try_catch, bind in *.
  destruct (findByIdAndUpdate_effect m (param req) (body req) options db Hnd)
    as [[Hstore Hnone]|(o & old & sets & Hc & Hf & Hcu & Hr & Hstore & _)].
  - destruct (findByIdAndUpdate m (param req) (body req) options db) as [[err|[found|]] st tr];
      cbn [result store trace ret] in *.
    + injection Hres as Hres. exfalso. apply (Hbad err). now rewrite Hres.
    + exfalso. eapply Hnone. reflexivity.
    + injection Hres as Hres. exfalso. apply Hnf. now rewrite Hres.
  - destruct (findByIdAndUpdate m (param req) (body req) options db) as [res st tr].
    cbn [result store trace] in *. subst res st. rewrite Hnew in *.
    cbn [result store trace ret] in *. injection Hres as <-.
    exists o. split; [assumption|]. rewrite collection_with. apply lookup_insert_eq.
Qed.

(** X7. What PUT answers is what GET then returns: when an update
    answers 200 with a record, GET with the same identifier on the
    resulting store answers 200 with that record. *)
Theorem put_then_get req db doc :
  (result (putCourse req db) = inr {| status := 200; json := Doc doc |} ->
   result (getCourse req (store (putCourse req db))) =
     inr {| status := 200; json := Doc doc |})
  /\ (result (putQuiz req db) = inr {| status := 200; json := Doc doc |} ->
      result (getQuiz req (store (putQuiz req db))) =
        inr {| status := 200; json := Doc doc |}).
Proof.
  split; intros Hres.
  - destruct (put_answer_stored Course {| new := true; runValidators := false |}
                {| status := 404; json := ErrorBody (Literal "Course not found") |}
                (fun err => {| status := 400; json := ErrorBody (message err) |})
                req db doc course_paths_NoDup eq_refl
                ltac:(discriminate) ltac:(discriminate) Hres) as (o & Hcast & Hlook).
    rewrite (getCourse_outcome req _ o Hcast). cbn [result].
    cbn [collection coll Course] in Hlook. fold (putCourse req db) in Hlook. now rewrite Hlook.
  - destruct (put_answer_stored Quiz {| new := true; runValidators := true |}
                {| status := 404; json := MessageBody (Literal "Quiz not found") |}
                (fun _ => {| status := 500; json := MessageBody (Literal "Server error") |})
                req db doc quiz_paths_NoDup eq_refl
                ltac:(discriminate) ltac:(discriminate) Hres) as (o & Hcast & Hlook).
    rewrite (getQuiz_outcome req _ o Hcast). cbn [result].
    cbn [collection coll Quiz] in Hlook. fold (putQuiz req db) in Hlook. now rewrite Hlook.
Qed.

(** An update that names no path of the model sets nothing. *)
Lemma castUpdate_none update : forall ps,
  (forall k, In k (map fst ps) -> obj_get k update = None) ->
  castUpdate ps update = inr [].
Proof.
  induction ps as [|[k p] ps IH]; simpl; intros Hnone; [reflexivity|].
  rewrite (Hnone k) by now left. apply IH. intros k' Hin. apply Hnone. now right.
Qed.

(** X8. A PUT whose flat body names no path of the model (the empty
    body, or only keys that are neither [_id], nor a path of the schema,
    nor the version key [__v]) is not an error: on an existing record it
    answers 200 with the record as stored and leaves the store as it
    was, for a course and for a quiz, whose update validators have
    nothing to look at. *)
Theorem put_without_fields req db o :
  castObjectId (param req) = Some o ->
  flat (body req) ->
  (forall course,
     courses db !! o = Some course ->
     (forall k, In k (map fst (paths Course)) -> obj_get k (body req) = None) ->
     result (putCourse req db) = inr {| status := 200; json := Doc course |}
     /\ store (putCourse req db) = db)
  /\ (forall quiz,
      quizzes db !! o = Some quiz ->
      (forall k, In k (map fst (paths Quiz)) -> obj_get k (body req) = None) ->
      result (putQuiz req db) = inr {| status := 200; json := Doc quiz |}
      /\ store (putQuiz req db) = db).
Proof.
  intros Hcast _. split.
  - intros course Hfound Hnone. unfold putCourse, try_catch, bind.
    rewrite (findByIdAndUpdate_found Course _ _ _ o db course Hcast Hfound).
    rewrite (castUpdate_none _ _ Hnone).
    cbn [rejected changes_id obj_get new apply_set fold_left result store trace ret
         coll Course with_collection collection].
    rewrite insert_id by assumption. now destruct db.
  - intros quiz Hfound Hnone. unfold putQuiz, try_catch, bind.
    rewrite (findByIdAndUpdate_found Quiz _ _ _ o db quiz Hcast Hfound).
    rewrite (castUpdate_none _ _ Hnone).
    cbn [rejected changes_id obj_get new apply_set fold_left result store trace ret
         coll Quiz with_collection collection].
    rewrite insert_id by assumption. now destruct db.
Qed.

(** X9. After DELETE by a well-formed identifier, whatever it answered,
    the record is gone: GET by the same identifier answers 404, and so
    does a second DELETE, which changes nothing. *)
Theorem delete_then_absent req db o :
  castObjectId (param req) = Some o ->
  (let db' := store (deleteCourse req db) in
   result (getCourse req db') =
     inr {| status := 404; json := ErrorBody (Literal "Course not found") |}
   /\ result (deleteCourse req db') =
        inr {| status := 404; json := ErrorBody (Literal "Course not found") |}
   /\ store (deleteCourse req db') = db')
  /\ (let db' := store (deleteQuiz req db) in
      result (getQuiz req db') =
        inr {| status := 404; json := ErrorBody (Literal "Quiz not found") |}
      /\ result (deleteQuiz req db') =
           inr {| status := 404; json := ErrorBody (Literal "Quiz not found") |}
      /\ store (deleteQuiz req db') = db').
Proof.
  intros Hcast. split; intros db'; subst db'.
  - rewrite (deleteCourse_outcome req db o Hcast). cbn [store].
    rewrite (getCourse_outcome req _ o Hcast), (deleteCourse_outcome req _ o Hcast).
    cbn [result store courses quizzes]. rewrite lookup_delete_eq.
    repeat split. now rewrite delete_id by apply lookup_delete_eq.
  - rewrite (deleteQuiz_outcome req db o Hcast). cbn [store].
    rewrite (getQuiz_outcome req _ o Hcast), (deleteQuiz_outcome req _ o Hcast).
    cbn [result store courses quizzes]. rewrite lookup_delete_eq.
    repeat split. now rewrite delete_id by apply lookup_delete_eq.
Qed.

(** X10. A request changes one record at most: of two records of the
    collection of the route, under different identifiers, one at least
    is after the request what it was before (absent if it was absent). *)
Theorem one_record_at_most e gen req db id id' :
  id <> id' ->
  let before := collection (target e) db in
  let after := collection (target e) (snd (serve e gen req db)) in
  after !! id = before !! id \/ after !! id' = before !! id'.
Proof.
  intros Hne before after. subst before after.
  assert (Hone : exists changed, forall other,
            other <> changed ->
            collection (target e) (snd (serve e gen req db)) !! other =
            collection (target e) db !! other).
  { destruct (serve_effect e gen req db) as (code & _ & _ & Heff).
    destruct Heff as [-> _|o doc _ _ _ _ -> |o doc doc' _ _ _ _ -> |o doc _ _ _ ->].
    - exists 0%N. reflexivity.
    - exists o. intros other Hother. rewrite collection_with. now apply lookup_insert_ne.
    - exists o. intros other Hother. rewrite collection_with. now apply lookup_insert_ne.
    - exists o. intros other Hother. rewrite collection_with. now apply lookup_delete_ne. }
  destruct Hone as [changed Hone].
  destruct (decide (id = changed)) as [->|Hid]; [right|left]; apply Hone; congruence.
Qed.

(** X11. The GET routes are safe: whatever they answer, the store after
    is the store before. *)
Theorem reads_leave_store e gen req db :
  kind e = Reads -> snd (serve e gen req db) = db.
Proof.
  intros Hk. destruct (serve_effect e gen req db) as (code & _ & _ & Heff).
  destruct Heff as [Hsame _| | |]; [assumption|congruence..].
Qed.

(** ** The list routes *)

Lemma documents_In c db doc :
  In doc (documents c db) <-> exists id, collection c db !! id = Some doc.
Proof.
  unfold documents. rewrite <- list_elem_of_In, list_elem_of_fmap. split.
  - intros ([id doc'] & -> & Hin). exists id. now apply elem_of_map_to_list.
  - intros (id & Hlook). exists (id, doc). split; [reflexivity|].
    now apply elem_of_map_to_list.
Qed.

Lemma has_id_spec path o doc :
  has_id path o doc = true <-> obj_get path doc = Some (VOid o).
Proof.
  unfold has_id. destruct (obj_get path doc) as [[| | | |o'| |]|]; try (split; discriminate).
  rewrite N.eqb_eq. split; [now intros ->|now intros [= ->]].
Qed.

(** X12. The list of courses answers 200 with the stored courses,
    each of them and nothing else, as many as the collection holds; in a
    store where every document is kept under its own [_id], each listed
    course is what GET by its [_id] returns. *)
Theorem getCourses_lists_the_collection req db :
  exists docs,
    getCourses req db = {| list_status := 200; list_json := DocList docs |}
    /\ (forall course, In course docs <-> exists id, courses db !! id = Some course)
    /\ length docs = size (courses db)
    /\ (keyed db ->
        forall course, In course docs ->
        exists id, obj_get "_id" course = Some (VOid id)
          /\ forall get, castObjectId (param get) = Some id ->
               result (getCourse get db) = inr {| status := 200; json := Doc course |}).
Proof.
  exists (documents Courses db). split; [reflexivity|]. split; [|split].
  - intros course. apply (documents_In Courses).
  - unfold documents. rewrite length_fmap. apply length_map_to_list.
  - intros Hkeyed course Hin. apply (documents_In Courses) in Hin as (id & Hlook).
    exists id. split; [apply (Hkeyed Courses id course Hlook)|].
    intros get Hget. rewrite (getCourse_outcome get db id Hget). cbn [result].
    cbn [collection] in Hlook. now rewrite Hlook.
Qed.

(** X13. The list of the quizzes of a course never looks the course
    up: a malformed identifier answers 400, and a well-formed one
    answers 200 with the stored quizzes whose [courseId] is that
    identifier, each of them and nothing else, the empty list when
    there is none. The answer depends on the quizzes alone, so it is the
    same after the course has been deleted. *)
Theorem getQuizzes_by_courseId req db :
  match castObjectId (param req) with
  | None =>
      getQuizzes req db =
        {| list_status := 400; list_json := ListError (message (CastError "courseId")) |}
  | Some o =>
      exists docs,
        getQuizzes req db = {| list_status := 200; list_json := DocList docs |}
        /\ (forall quiz, In quiz docs <->
              exists id, quizzes db !! id = Some quiz
                         /\ obj_get "courseId" quiz = Some (VOid o))
        /\ ((forall id quiz, quizzes db !! id = Some quiz ->
                obj_get "courseId" quiz <> Some (VOid o)) -> docs = [])
  end
  /\ getQuizzes req (store (deleteCourse req db)) = getQuizzes req db.
Proof.
  split.
  - unfold getQuizzes, findWhere. destruct (castObjectId (param req)) as [o|]; [|reflexivity].
    eexists. split; [reflexivity|].
    assert (Hmem : forall quiz,
              In quiz (List.filter (has_id "courseId" o) (documents (coll Quiz) db)) <->
              exists id, quizzes db !! id = Some quiz
                         /\ obj_get "courseId" quiz = Some (VOid o)).
    { intros quiz. rewrite filter_In, (documents_In Quizzes), has_id_spec.
      cbn [collection]. split.
      - intros [(id & Hlook) Hc]. eauto.
      - intros (id & Hlook & Hc). eauto. }
    split; [exact Hmem|]. intros Hnone.
    destruct (List.filter (has_id "courseId" o) (documents (coll Quiz) db)) as [|quiz docs] eqn:Hf;
      [reflexivity|exfalso].
    destruct (proj1 (Hmem quiz) (or_introl eq_refl)) as (id & Hlook & Hc).
    now apply (Hnone id quiz).
  - assert (Hq : quizzes (store (deleteCourse req db)) = quizzes db).
    { destruct (castObjectId (param req)) as [o|] eqn:Hcast.
      - now rewrite (deleteCourse_outcome req db o Hcast).
      - run_handler. now rewrite Hcast. }
    unfold getQuizzes, findWhere, documents. cbn [coll Quiz collection]. now rewrite Hq.
Qed.

(** X14. A created quiz can be read back both ways. When the quiz
    creation answers 201 with a quiz, a quiz is stored under a new
    identifier, which it carries as [_id]: the answered quiz itself
    when that has an identifier, and otherwise (its [_id] is null) a
    copy that differs from it under [_id] only. GET by that identifier
    on the resulting store answers 200 with the stored quiz, and the
    list of the quizzes of the course of the path then holds the stored
    quiz together with the quizzes it held before, and nothing else. *)
Theorem postQuiz_then_read gen req db quiz :
  result (postQuiz gen req db) = inr {| status := 201; json := Doc quiz |} ->
  let db' := store (postQuiz gen req db) in
  exists id stored before after,
    quizzes db !! id = None
    /\ quizzes db' !! id = Some stored
    /\ obj_get "_id" stored = Some (VOid id)
    /\ (forall k, k <> "_id" -> obj_get k stored = obj_get k quiz)
    /\ ((obj_get "_id" quiz = Some (VOid id) /\ stored = quiz)
        \/ obj_get "_id" quiz = Some VNull)
    /\ (forall get, castObjectId (param get) = Some id ->
          result (getQuiz get db') = inr {| status := 200; json := Doc stored |})
    /\ getQuizzes req db = {| list_status := 200; list_json := DocList before |}
    /\ getQuizzes req db' = {| list_status := 200; list_json := DocList after |}
    /\ (forall q, In q after <-> q = stored \/ In q before).
Proof.
  intros Hres db'. subst db'.
  destruct (castObjectId (param req)) as [o|] eqn:Hcast.
  2:{ exfalso. revert Hres. run_handler. rewrite Hcast. discriminate. }
  destruct (courses db !! o) as [course|] eqn:Hfound.
  2:{ exfalso. revert Hres. run_handler. rewrite Hcast. run_handler. rewrite Hfound.
      discriminate. }
  rewrite (postQuiz_found gen req db o course Hcast Hfound) in *. cbn [result store] in *.
  set (built := new_ Quiz gen (spread_with (body req) "courseId" (VStr (param req)))) in *.
  destruct (save_cases Quiz gen built db)
    as [(e & He & _)|(id & copy & _ & Hins & Hfree & Hsave)].
  { rewrite He in Hres. discriminate. }
  rewrite Hsave in *. cbn [result store with_collection coll Quiz] in *.
  injection Hres as <-. cbn [collection] in Hfree.
  destruct (inserted_spec gen _ id copy Hins) as (Hid & Hsame & Hcopy).
  exists id, copy. unfold getQuizzes, findWhere. rewrite Hcast. do 2 eexists.
  split; [exact Hfree|]. split; [cbn [quizzes]; apply lookup_insert_eq|].
  split; [exact Hid|]. split; [exact Hsame|].
  split; [destruct Hcopy as [[? ->]|[? _]]; auto|].
  split; [|split; [reflexivity|split; [reflexivity|]]].
  - intros get Hget. rewrite (getQuiz_outcome get _ id Hget). cbn [result quizzes collection].
    now rewrite lookup_insert_eq.
  - intros q. rewrite !filter_In, !(documents_In Quizzes), !has_id_spec.
    cbn [collection quizzes coll Quiz]. split.
    + intros [(id' & Hlook) Hc]. destruct (decide (id' = id)) as [->|Hne].
      * rewrite lookup_insert_eq in Hlook. left. congruence.
      * rewrite lookup_insert_ne in Hlook by congruence. right. eauto.
    + intros [->|[(id' & Hlook) Hc]].
      * split; [exists id; apply lookup_insert_eq|].
        rewrite Hsame by discriminate. rewrite versioned_lookup.
        cbn [String.eqb Ascii.eqb Bool.eqb]. subst built. now apply built_quiz_courseId.
      * split; [|assumption]. exists id'. rewrite lookup_insert_ne; [assumption|].
        intros <-. congruence.
Qed.

End RouterFacts.

(** ** Routing *)

(** Case analysis on the comparisons of segments: those between two
    literals are evaluated. *)
Ltac split_segment :=
  match goal with
  | |- context [same_segment ?a ?b] =>
      lazymatch b with
      | String _ _ =>
          let v := eval vm_compute in (same_segment a b) in
          change (same_segment a b) with v
      | _ => destruct (same_segment a b) eqn:?
      end
  end.

Ltac split_segments := cbn -[same_segment]; repeat (split_segment; cbn -[same_segment]).

Lemma route_coursesRouter m path e p :
  route coursesRouter m path = Some (e, p) ->
  exists a b rest,
    path = a :: b :: rest
    /\ same_segment "api" a = true /\ same_segment "courses" b = true
    /\ target e = Courses /\ handles (verb e) m = true.
Proof.
  destruct path as [|a [|b [|c [|d rest]]]]; destruct m; split_segments;
    try discriminate; intros [= <- <-]; eauto 10.
Qed.

Lemma route_quizzesRouter m path e p :
  route quizzesRouter m path = Some (e, p) ->
  exists a b rest,
    path = a :: b :: rest
    /\ same_segment "api" a = true
    /\ (same_segment "courses" b = true \/ same_segment "quizzes" b = true)
    /\ target e = Quizzes /\ handles (verb e) m = true.
Proof.
  destruct path as [|a [|b [|c [|d [|x rest]]]]]; destruct m; split_segments;
    try discriminate; intros [= <- <-]; eauto 10.
Qed.

Lemma strip_mount_1 s path path' :
  strip_mount [s] path = Some path' ->
  exists a, path = a :: path' /\ same_segment s a = true.
Proof.
  destruct path as [|a path]; cbn -[same_segment]; [discriminate|].
  destruct (same_segment s a) eqn:Hs; [|discriminate]. intros [= <-]. eauto.
Qed.

Lemma strip_mount_2 s t path path' :
  strip_mount [s; t] path = Some path' ->
  exists a b, path = a :: b :: path' /\ same_segment s a = true /\ same_segment t b = true.
Proof.
  destruct path as [|a [|b path]]; cbn -[same_segment]; try discriminate.
  - destruct (same_segment s a); discriminate.
  - destruct (same_segment s a) eqn:Hs; [|discriminate].
    destruct (same_segment t b) eqn:Ht; [|discriminate]. intros [= <-]. eauto 10.
Qed.

Lemma dispatch_Routed mounts m path e p :
  dispatch mounts m path = Routed e p -> use mounts m path = Some (e, p).
Proof.
  unfold dispatch. destruct m;
    try discriminate;
    (destruct (strip_mount ["api-docs"] path); [discriminate|]);
    (destruct (use mounts _ path) as [[e' p']|]; [now intros [= -> ->]|]);
    destruct path; discriminate.
Qed.

(** A HEAD request goes where the GET request for the path goes. *)
Lemma dispatch_HEAD mounts path : dispatch mounts HEAD path = dispatch mounts GET path.
Proof.
  assert (Hroute : forall r, route r HEAD path = route r GET path).
  { induction r as [|[[m' pattern] e] r IH]; simpl; [reflexivity|].
    rewrite IH. now destruct m'. }
  assert (Huse : use mounts HEAD path = use mounts GET path).
  { induction mounts as [|[mount r] mounts IH]; simpl; [reflexivity|].
    rewrite IH. destruct (strip_mount mount path) as [path'|]; [|reflexivity].
    assert (Hr : forall q, route r HEAD q = route r GET q).
    { intros q. induction r as [|[[m' pattern] e] r IHr]; simpl; [reflexivity|].
      rewrite IHr. now destruct m'. }
    now rewrite Hr. }
  unfold dispatch. now rewrite Huse.
Qed.

(** X15. Routing in [app.js], which mounts the routers under
    [/api/courses] and [/api/quizzes] while their routes repeat the
    prefix. Every OPTIONS request is ended by [cors()]. No documented
    path ([/api/courses], [/api/courses/:id],
    [/api/courses/:courseId/quizzes], [/api/quizzes/:id]) reaches a
    handler: with every other method the request falls through to the
    404 of the framework. A request that reaches a handler has the
    method of the route (or HEAD, for a GET route) and a path of the
    form [/api/M/api/...], where [M] is [courses] for the course routes
    and [quizzes] for the quiz routes; each route is reached at its
    path behind its mount path, with the parameter of that path, and a
    HEAD request goes where the GET request for its path goes. *)
Theorem app_js_routes m path :
  dispatch app_js OPTIONS path = Preflight
  /\ (documented path -> m <> OPTIONS -> dispatch app_js m path = NotFound)
  /\ (forall e p, dispatch app_js m path = Routed e p ->
        handles (verb e) m = true
        /\ exists a b c d rest,
             path = a :: b :: c :: d :: rest
             /\ same_segment "api" a = true
             /\ same_segment
                  (match target e with Courses => "courses" | Quizzes => "quizzes" end) b
                = true
             /\ same_segment "api" c = true)
  /\ dispatch app_js HEAD path = dispatch app_js GET path
  /\ (forall id,
        dispatch app_js POST ["api"; "courses"; "api"; "courses"] = Routed PostCourse ""
        /\ dispatch app_js GET ["api"; "courses"; "api"; "courses"] = Routed GetCourses ""
        /\ dispatch app_js GET ["api"; "courses"; "api"; "courses"; id] = Routed GetCourse id
        /\ dispatch app_js PUT ["api"; "courses"; "api"; "courses"; id] = Routed PutCourse id
        /\ dispatch app_js DELETE ["api"; "courses"; "api"; "courses"; id] = Routed DeleteCourse id
        /\ dispatch app_js POST ["api"; "quizzes"; "api"; "courses"; id; "quizzes"]
           = Routed PostQuiz id
        /\ dispatch app_js GET ["api"; "quizzes"; "api"; "courses"; id; "quizzes"]
           = Routed GetQuizzes id
        /\ dispatch app_js GET ["api"; "quizzes"; "api"; "quizzes"; id] = Routed GetQuiz id
        /\ dispatch app_js PUT ["api"; "quizzes"; "api"; "quizzes"; id] = Routed PutQuiz id
        /\ dispatch app_js DELETE ["api"; "quizzes"; "api"; "quizzes"; id] = Routed DeleteQuiz id).
Proof.
  split; [reflexivity|]. split; [|split; [|split; [apply dispatch_HEAD|]]].
  - intros [->|[[id ->]|[[id ->]|[id ->]]]] Hm; unfold dispatch; destruct m;
      try congruence; split_segments; reflexivity.
  - intros e p Hd. apply dispatch_Routed in Hd. unfold app_js in Hd. cbn [use] in Hd.
    destruct (strip_mount ["api"; "courses"] path) as [path'|] eqn:Hc.
    + apply strip_mount_2 in Hc as (a & b & -> & Ha & Hb).
      destruct (route coursesRouter m path') as [[e' p']|] eqn:Hr.
      * injection Hd as -> ->.
        apply route_coursesRouter in Hr as (c & d & rest & -> & Hc' & _ & -> & Hm).
        split; [exact Hm|]. eauto 12.
      * cbn [strip_mount] in Hd. rewrite Ha in Hd.
        destruct (same_segment "quizzes" b) eqn:Hq; [|discriminate].
        destruct (route quizzesRouter m path') as [[e' p']|] eqn:Hr'; cbv beta iota in Hd;
          [|discriminate].
        injection Hd as -> ->.
        apply route_quizzesRouter in Hr' as (c & d & rest & -> & Hc' & _ & -> & Hm).
        split; [exact Hm|]. eauto 12.
    + destruct (strip_mount ["api"; "quizzes"] path) as [path'|] eqn:Hq; [|discriminate].
      apply strip_mount_2 in Hq as (a & b & -> & Ha & Hb).
      destruct (route quizzesRouter m path') as [[e' p']|] eqn:Hr; [|discriminate].
      injection Hd as -> ->.
      apply route_quizzesRouter in Hr as (c & d & rest & -> & Hc' & _ & -> & Hm).
      split; [exact Hm|]. eauto 12.
  - intros id. unfold dispatch. repeat split; split_segments; reflexivity.
Qed.

(** X16. Routing in the second bootstrap file, which mounts both
    routers under [/api]. Every OPTIONS request is ended by [cors()].
    No documented path reaches a handler: with every other method the
    request falls through to the 404 of the framework. A request that
    reaches a handler has the method of the route (or HEAD, for a GET
    route) and a path that begins with [/api/api]; each route is
    reached at its documented path behind one more [/api], the quiz
    routes through the course router, which has no route for them and
    passes them on, and a HEAD request goes where the GET request for
    its path goes. *)
Theorem app_alt_routes m path :
  dispatch app_alt OPTIONS path = Preflight
  /\ (documented path -> m <> OPTIONS -> dispatch app_alt m path = NotFound)
  /\ (forall e p, dispatch app_alt m path = Routed e p ->
        handles (verb e) m = true
        /\ exists a b rest,
             path = a :: b :: rest
             /\ same_segment "api" a = true /\ same_segment "api" b = true)
  /\ dispatch app_alt HEAD path = dispatch app_alt GET path
  /\ (forall id,
        dispatch app_alt POST ["api"; "api"; "courses"] = Routed PostCourse ""
        /\ dispatch app_alt GET ["api"; "api"; "courses"] = Routed GetCourses ""
        /\ dispatch app_alt GET ["api"; "api"; "courses"; id] = Routed GetCourse id
        /\ dispatch app_alt PUT ["api"; "api"; "courses"; id] = Routed PutCourse id
        /\ dispatch app_alt DELETE ["api"; "api"; "courses"; id] = Routed DeleteCourse id
        /\ dispatch app_alt POST ["api"; "api"; "courses"; id; "quizzes"] = Routed PostQuiz id
        /\ dispatch app_alt GET ["api"; "api"; "courses"; id; "quizzes"] = Routed GetQuizzes id
        /\ dispatch app_alt GET ["api"; "api"; "quizzes"; id] = Routed GetQuiz id
        /\ dispatch app_alt PUT ["api"; "api"; "quizzes"; id] = Routed PutQuiz id
        /\ dispatch app_alt DELETE ["api"; "api"; "quizzes"; id] = Routed DeleteQuiz id).
Proof.
  split; [reflexivity|]. split; [|split; [|split; [apply dispatch_HEAD|]]].
  - intros [->|[[id ->]|[[id ->]|[id ->]]]] Hm; unfold dispatch; destruct m;
      try congruence; split_segments; reflexivity.
  - intros e p Hd. apply dispatch_Routed in Hd. unfold app_alt in Hd. cbn [use] in Hd.
    destruct (strip_mount ["api"] path) as [path'|] eqn:Hc; [|discriminate].
    apply strip_mount_1 in Hc as (a & -> & Ha).
    destruct (route coursesRouter m path') as [[e' p']|] eqn:Hr.
    + injection Hd as -> ->.
      apply route_coursesRouter in Hr as (b & c & rest & -> & Hb & _ & _ & Hm).
      split; [exact Hm|]. eauto 10.
    + destruct (route quizzesRouter m path') as [[e' p']|] eqn:Hr'; [|discriminate].
      injection Hd as -> ->.
      apply route_quizzesRouter in Hr' as (b & c & rest & -> & Hb & _ & _ & Hm).
      split; [exact Hm|]. eauto 10.
  - intros id. unfold dispatch. repeat split; split_segments; reflexivity.
Qed.

(** ** Closed examples, with the reference conversions *)

#[local] Existing Instance reference.

(** C2, at the failing input. A course is created and then updated with
    a status outside the enumeration and a null title. The created
    course satisfies the invariant; the update answers 200 and the
    stored course has the status "archived" and the title null, so it
    does not. The course update calls [findByIdAndUpdate] without
    [runValidators], so the validators of the schema are not run. *)
Theorem putCourse_skips_validators :
  let update := {| param := id1;
                   body := [("status", VStr "archived"); ("title", VNull)] |} in
  let out := putCourse update courseDb in
  (exists course, courses courseDb !! oid1 = Some course
                  /\ courseInvariant course = true)
  /\ (exists course, result out = inr {| status := 200; json := Doc course |}
                     /\ courses (store out) !! oid1 = Some course
                     /\ obj_get "status" course = Some (VStr "archived")
                     /\ obj_get "title" course = Some VNull
                     /\ courseInvariant course = false).
Proof.
  cbv zeta. split.
  - eexists. split; [vm_compute; reflexivity|]. reflexivity.
  - eexists. split; [vm_compute; reflexivity|].
    split; [vm_compute; reflexivity|]. repeat split; reflexivity.
Qed.

(** C7, at the failing input. The quiz update with an identifier that
    is not an ObjectId answers 500, where every other by-id handler
    answers 400 (see [malformed_identifier_400]). *)
Theorem putQuiz_malformed_id_500 :
  castObjectId "abc" = None
  /\ putQuiz {| param := "abc"; body := [] |} quizDb =
       {| result := inr {| status := 500; json := MessageBody (Literal "Server error") |};
          store := quizDb; trace := [] |}.
Proof. split; [reflexivity|]. now apply putQuiz_malformed_identifier. Qed.

(** C1, counterexample. No course has the identifier "abc" (it denotes
    none), and the quiz creation under it answers 400, not 404. *)
Lemma postQuiz_malformed_courseId_400 :
  (forall o, castObjectId "abc" = Some o -> courses courseDb !! o = None)
  /\ postQuiz oid2 {| param := "abc"; body := quizPayload |} courseDb =
       {| result := inr {| status := 400; json := ErrorBody (message (CastError "_id")) |};
          store := courseDb; trace := [] |}.
Proof. split; [intros o Hcast; discriminate Hcast | reflexivity]. Qed.

(** C3, counterexample. A payload with every required field and one key
    more is accepted; the record that GET returns has nothing under that
    key (and has the version key and the empty chapters, which the
    payload has not), so it is not the payload plus the identifier. *)
Lemma postCourse_drops_undeclared_key :
  let payload := (introCourse ++ [("tags", VStr "rocq")])%list in
  let post := postCourse oid1 {| param := ""; body := payload |} emptyDb in
  let get := getCourse {| param := id1; body := [] |} (store post) in
  validPayload courseSchema payload = true
  /\ exists course,
       result post = inr {| status := 201; json := Doc course |}
       /\ result get = inr {| status := 200; json := Doc course |}
       /\ obj_get "tags" course = None
       /\ obj_get "tags" (("_id", VOid oid1) :: payload) = Some (VStr "rocq")
       /\ obj_get "__v" course = Some (VNum 0)
       /\ obj_get "__v" (("_id", VOid oid1) :: payload) = None.
Proof.
  cbv zeta. split; [reflexivity|]. eexists.
  split; [vm_compute; reflexivity|]. split; [vm_compute; reflexivity|].
  repeat split; reflexivity.
Qed.

(** C4, counterexample. On an existing course, a payload whose duration
    is not a number is answered 400 and sets nothing; a payload with a
    key that the model does not declare is answered 200 and the key is
    not set. *)
Lemma put_does_not_set_every_supplied_field :
  let bad := putCourse {| param := id1; body := [("duration", VStr "abc")] |} courseDb in
  let extra := putCourse {| param := id1; body := [("tags", VStr "rocq")] |} courseDb in
  exists course,
    courses courseDb !! oid1 = Some course
    /\ result bad = inr {| status := 400; json := ErrorBody (message (CastError "duration")) |}
    /\ store bad = courseDb
    /\ result extra = inr {| status := 200; json := Doc course |}
    /\ obj_get "tags" course = None.
Proof.
  cbv zeta. eexists. split; [vm_compute; reflexivity|]. split; [reflexivity|].
  split; [reflexivity|]. split; [vm_compute; reflexivity|]. reflexivity.
Qed.

(** C6, counterexample. The identifier is well formed and no course has
    it, and the course update answers 400, not 404, because the payload
    is cast before the store is asked. *)
Lemma putCourse_absent_id_400 :
  let put := putCourse {| param := id3; body := [("duration", VStr "abc")] |} courseDb in
  castObjectId id3 = Some 163%N
  /\ courses courseDb !! 163%N = None
  /\ result put = inr {| status := 400; json := ErrorBody (message (CastError "duration")) |}.
Proof. cbv zeta. split; [reflexivity|]. split; [vm_compute; reflexivity|]. reflexivity. Qed.


(** ** The theorems at concrete inputs *)

Lemma postQuiz_course_check_witness :
  (forall o, castObjectId id3 = Some o -> courses courseDb !! o = None)
  /\ store (postQuiz oid2 {| param := id3; body := quizPayload |} courseDb) = courseDb
  /\ result (postQuiz oid2 {| param := id3; body := quizPayload |} courseDb) =
       inr {| status := 404; json := ErrorBody (Literal "Course not found") |}.
Proof.
  assert (Hnone : forall o, castObjectId id3 = Some o -> courses courseDb !! o = None).
  { intros o Hcast. injection Hcast as <-. vm_compute. reflexivity. }
  split; [exact Hnone|].
  destruct (postQuiz_course_check oid2 {| param := id3; body := quizPayload |} courseDb)
    as [_ Hmissing].
  destruct (Hmissing Hnone) as (Hstore & _ & Hres).
  split; [exact Hstore | exact Hres].
Defined.

Lemma postCourse_then_getCourse_witness :
  flat introCourse
  /\ validPayload courseSchema introCourse = true
  /\ obj_get "_id" introCourse = None
  /\ obj_get "__v" introCourse = None
  /\ courses emptyDb !! oid1 = None
  /\ castObjectId id1 = Some oid1
  /\ exists course,
       result (postCourse oid1 postIntro emptyDb) = inr {| status := 201; json := Doc course |}
       /\ result (getCourse {| param := id1; body := [] |}
                    (store (postCourse oid1 postIntro emptyDb))) =
            inr {| status := 200; json := Doc course |}
       /\ obj_get "title" course = Some (VStr "Intro")
       /\ obj_get "__v" course = Some (VNum 0).
Proof.
  assert (H0 : flat introCourse) by reflexivity.
  assert (H1 : validPayload courseSchema introCourse = true) by reflexivity.
  assert (H2 : obj_get "_id" introCourse = None) by reflexivity.
  assert (H3 : obj_get "__v" introCourse = None) by reflexivity.
  assert (H4 : courses emptyDb !! oid1 = None) by reflexivity.
  assert (H5 : castObjectId id1 = Some oid1) by reflexivity.
  repeat (split; [assumption|]).
  destruct (postCourse_then_getCourse oid1 postIntro {| param := id1; body := [] |}
              emptyDb H0 H1 H2 H3 H4 H5) as (course & Hpost & Hget & _ & Hversion & Hkept & _).
  exists course. split; [exact Hpost|]. split; [exact Hget|]. split; [|exact Hversion].
  rewrite (Hkept "title" (field String_ true)); [reflexivity | simpl; auto | discriminate].
Defined.

Lemma put_sets_supplied_fields_witness :
  let req := {| param := id1;
                body := [("title", VStr "Logic"); ("price", VNum 0.5); ("__v", VNum 7);
                         ("tags", VStr "rocq")] |} in
  let sets := [("title", VStr "Logic"); ("price", VNum 0.5); ("__v", VNum 7)] in
  castObjectId id1 = Some oid1
  /\ flat (body req)
  /\ obj_get "_id" (body req) = None
  /\ castUpdate (paths Course) (body req) = inr sets
  /\ updateValidators courseSchema sets = true
  /\ exists course course',
       courses courseDb !! oid1 = Some course
       /\ result (putCourse req courseDb) = inr {| status := 200; json := Doc course' |}
       /\ obj_get "title" course' = Some (VStr "Logic")
       /\ obj_get "price" course' = Some (VNum 0.5)
       /\ obj_get "__v" course' = Some (VNum 7)
       /\ obj_get "level" course' = obj_get "level" course
       /\ obj_get "tags" course' = None
       /\ exists quiz',
            result (putQuiz {| param := id2; body := [("questions", VArr [])] |} quizDb) =
              inr {| status := 200; json := Doc quiz' |}
            /\ obj_get "questions" quiz' = Some (VArr [])
            /\ obj_get "courseId" quiz' = Some (VOid oid1).
Proof.
  intros req sets.
  assert (H1 : castObjectId id1 = Some oid1) by reflexivity.
  assert (H2 : flat (body req)) by reflexivity.
  assert (H3 : obj_get "_id" (body req) = None) by reflexivity.
  assert (H4 : castUpdate (paths Course) (body req) = inr sets) by reflexivity.
  assert (H5 : updateValidators courseSchema sets = true) by reflexivity.
  repeat (split; [assumption|]).
  destruct (put_sets_supplied_fields req courseDb oid1 H1 H2 H3) as [Hcourse _].
  assert (Hfound : courses courseDb !! oid1 =
                     Some (versioned (fields (new_ Course oid1 introCourse))))
    by (vm_compute; reflexivity).
  destruct (Hcourse _ Hfound) as [Hset _].
  destruct (Hset _ H4 H5) as (course' & Hres & _ & Hlook & Htyped).
  exists (versioned (fields (new_ Course oid1 introCourse))), course'.
  split; [exact Hfound|]. split; [exact Hres|].
  split; [apply (Htyped "title" (field String_ true)); reflexivity|].
  split; [apply (Htyped "price" (field Number_ true)); reflexivity|].
  split; [apply (Htyped "__v" (field Number_ false)); reflexivity|].
  split; [rewrite Hlook; reflexivity|].
  split; [rewrite Hlook; reflexivity|].
  set (req2 := {| param := id2; body := [("questions", VArr [])] |}).
  assert (Q1 : castObjectId (param req2) = Some oid2) by reflexivity.
  assert (Q2 : flat (body req2)) by reflexivity.
  assert (Q3 : obj_get "_id" (body req2) = None) by reflexivity.
  assert (Q4 : castUpdate (paths Quiz) (body req2) = inr [("questions", VArr [])])
    by reflexivity.
  assert (Q5 : updateValidators quizSchema [("questions", VArr [])] = true) by reflexivity.
  destruct (put_sets_supplied_fields req2 quizDb oid2 Q1 Q2 Q3) as [_ Hquiz].
  assert (Hstored : exists quiz, quizzes quizDb !! oid2 = Some quiz
                                 /\ obj_get "courseId" quiz = Some (VOid oid1)).
  { eexists. split; [vm_compute; reflexivity | reflexivity]. }
  destruct Hstored as (quiz & Hstored & HcourseId).
  destruct (Hquiz _ Hstored) as [Hupdate _].
  destruct (Hupdate _ Q4 Q5) as (quiz' & Hres' & _ & Hlook' & _).
  exists quiz'. split; [exact Hres'|].
  split; [rewrite Hlook'; reflexivity | rewrite Hlook'; exact HcourseId].
Defined.

Lemma postCourse_missing_required_witness :
  In "category" requiredFields
  /\ missing "category" (tl introCourse)
  /\ exists failed,
       postCourse oid1 {| param := ""; body := tl introCourse |} emptyDb =
         {| result := inr {| status := 400;
                             json := ErrorBody (message (ValidationError failed)) |};
            store := emptyDb; trace := [] |}.
Proof.
  assert (H1 : In "category" requiredFields) by (simpl; auto).
  assert (H2 : missing "category" (tl introCourse)) by (left; reflexivity).
  split; [exact H1|]. split; [exact H2|].
  exact (postCourse_missing_required oid1 {| param := ""; body := tl introCourse |}
           emptyDb "category" H1 H2).
Defined.

Lemma absent_identifier_witness :
  let req := {| param := id3; body := [("title", VStr "Logic")] |} in
  castObjectId id3 = Some 163%N
  /\ courses quizDb !! 163%N = None
  /\ flat (body req)
  /\ castUpdate (paths Course) (body req) = inr [("title", VStr "Logic")]
  /\ updateValidators courseSchema [("title", VStr "Logic")] = true
  /\ result (deleteCourse req quizDb) =
       inr {| status := 404; json := ErrorBody (Literal "Course not found") |}
  /\ store (deleteCourse req quizDb) = quizDb
  /\ result (putCourse req quizDb) =
       inr {| status := 404; json := ErrorBody (Literal "Course not found") |}
  /\ store (putCourse req quizDb) = quizDb.
Proof.
  intros req.
  assert (H1 : castObjectId id3 = Some 163%N) by reflexivity.
  assert (H2 : courses quizDb !! 163%N = None) by (vm_compute; reflexivity).
  assert (H3 : flat (body req)) by reflexivity.
  assert (H4 : castUpdate (paths Course) (body req) = inr [("title", VStr "Logic")])
    by reflexivity.
  assert (H5 : updateValidators courseSchema [("title", VStr "Logic")] = true) by reflexivity.
  repeat (split; [assumption|]).
  destruct (absent_identifier req quizDb 163%N H1) as [Hcourse _].
  destruct (Hcourse H2) as (_ & [Hdelete Hkept] & Hstore & Hput & _).
  split; [exact Hdelete|]. split; [exact Hkept|].
  split; [exact (Hput _ H3 H4 H5) | exact Hstore].
Defined.

Lemma deleteCourse_removes_only_the_course_witness :
  castObjectId id1 = Some oid1
  /\ courses quizDb !! oid1 = Some (versioned (fields (new_ Course oid1 introCourse)))
  /\ quizzes (store (deleteCourse {| param := id1; body := [] |} quizDb)) = quizzes quizDb
  /\ courses (store (deleteCourse {| param := id1; body := [] |} quizDb)) !! oid1 = None.
Proof.
  assert (H1 : castObjectId id1 = Some oid1) by reflexivity.
  assert (H2 : courses quizDb !! oid1 = Some (versioned (fields (new_ Course oid1 introCourse))))
    by (vm_compute; reflexivity).
  split; [exact H1|]. split; [exact H2|].
  destruct (deleteCourse_removes_only_the_course {| param := id1; body := [] |} quizDb
              oid1 _ H1 H2) as (_ & _ & Hgone & _ & Hquizzes & _).
  split; [exact Hquizzes | exact Hgone].
Defined.


Lemma postQuiz_courseId_from_path_witness :
  let req := {| param := id1; body := ("_id", VNull) :: quizPayload |} in
  castObjectId id1 = Some oid1
  /\ courses courseDb !! oid1 = Some (versioned (fields (new_ Course oid1 introCourse)))
  /\ flat (body req)
  /\ missing "_id" (body req)
  /\ obj_get "__v" (body req) = None
  /\ quizzes courseDb !! oid2 = None
  /\ obj_get "courseId" (body req) = Some (VStr id3)
  /\ exists quiz stored,
       result (postQuiz oid2 req courseDb) = inr {| status := 201; json := Doc quiz |}
       /\ quizzes (store (postQuiz oid2 req courseDb)) = <[oid2 := stored]> (quizzes courseDb)
       /\ obj_get "courseId" quiz = Some (VOid oid1)
       /\ obj_get "courseId" stored = Some (VOid oid1)
       /\ obj_get "_id" stored = Some (VOid oid2).
Proof.
  intros req.
  assert (H1 : castObjectId id1 = Some oid1) by reflexivity.
  assert (H2 : courses courseDb !! oid1 =
                 Some (versioned (fields (new_ Course oid1 introCourse))))
    by (vm_compute; reflexivity).
  assert (H3 : flat (body req)) by reflexivity.
  assert (H4 : missing "_id" (body req)) by (right; reflexivity).
  assert (H5 : obj_get "__v" (body req) = None) by reflexivity.
  assert (H6 : quizzes courseDb !! oid2 = None) by (vm_compute; reflexivity).
  repeat (split; [assumption|]). split; [reflexivity|].
  destruct (postQuiz_courseId_from_path oid2 req courseDb oid1 _ H1 H2) as [_ Hcreated].
  destruct (Hcreated H3 H4 H5 H6) as (quiz & stored & Hres & Hstore & _ & Hq & Hs & Hid & _);
    [reflexivity|].
  exists quiz, stored. repeat (split; [assumption|]). exact Hid.
Defined.

(** ** The further properties at concrete inputs *)

Lemma serve_answers_witness :
  exists code,
    reply_status (fst (serve PutQuiz oid1 {| param := "quiz-1"; body := [] |} quizDb)) = Some code
    /\ code <> 400%nat.
Proof.
  destruct (serve_answers PutQuiz oid1 {| param := "quiz-1"; body := [] |} quizDb)
    as (code & Hcode & _ & _ & Hput).
  exists code. split; [exact Hcode | exact (Hput eq_refl)].
Defined.

Lemma error_leaves_store_witness :
  let req := {| param := id3; body := [] |} in
  reply_status (fst (serve DeleteCourse oid1 req quizDb)) = Some 404%nat
  /\ (400 <= 404)%nat
  /\ snd (serve DeleteCourse oid1 req quizDb) = quizDb.
Proof.
  intros req.
  assert (H1 : reply_status (fst (serve DeleteCourse oid1 req quizDb)) = Some 404%nat)
    by (vm_compute; reflexivity).
  assert (H2 : (400 <= 404)%nat) by (apply Nat.leb_le; reflexivity).
  split; [exact H1|]. split; [exact H2|].
  exact (error_leaves_store DeleteCourse oid1 req quizDb 404 H1 H2).
Defined.

Lemma other_collection_kept_witness :
  let req := {| param := id1; body := [] |} in
  Quizzes <> target DeleteCourse
  /\ collection Quizzes (snd (serve DeleteCourse oid1 req quizDb)) = collection Quizzes quizDb.
Proof.
  intros req.
  assert (H1 : Quizzes <> target DeleteCourse) by discriminate.
  split; [exact H1|].
  exact (other_collection_kept DeleteCourse oid1 req quizDb Quizzes H1).
Defined.

Lemma put_twice_witness :
  let req := {| param := id1; body := [("title", VStr "Logic"); ("price", VNum 0)] |} in
  flat (body req)
  /\ obj_get "chapters" (body req) = None
  /\ putCourse req (store (putCourse req courseDb)) = putCourse req courseDb.
Proof.
  intros req.
  assert (H1 : flat (body req)) by reflexivity.
  assert (H2 : obj_get "chapters" (body req) = None) by reflexivity.
  split; [exact H1|]. split; [exact H2|].
  destruct (put_twice req courseDb H1) as [Hcourse _]. exact (Hcourse H2).
Defined.

Lemma put_then_get_witness :
  let req := {| param := id1; body := [("title", VStr "Logic")] |} in
  let course := apply_set [("title", VStr "Logic")]
                  (versioned (fields (new_ Course oid1 introCourse))) in
  result (putCourse req courseDb) = inr {| status := 200; json := Doc course |}
  /\ result (getCourse req (store (putCourse req courseDb))) =
       inr {| status := 200; json := Doc course |}.
Proof.
  intros req course.
  assert (H1 : result (putCourse req courseDb) = inr {| status := 200; json := Doc course |})
    by (vm_compute; reflexivity).
  split; [exact H1|].
  destruct (put_then_get req courseDb course) as [Hcourse _]. exact (Hcourse H1).
Defined.

Lemma put_without_fields_witness :
  let req := {| param := id2; body := [("rating", VNum 5)] |} in
  exists quiz,
    castObjectId (param req) = Some oid2
    /\ flat (body req)
    /\ quizzes quizDb !! oid2 = Some quiz
    /\ (forall k, In k (map fst (paths Quiz)) -> obj_get k (body req) = None)
    /\ result (putQuiz req quizDb) = inr {| status := 200; json := Doc quiz |}
    /\ store (putQuiz req quizDb) = quizDb.
Proof.
  intros req.
  assert (H1 : castObjectId (param req) = Some oid2) by reflexivity.
  assert (H2 : flat (body req)) by reflexivity.
  assert (H3 : exists quiz, quizzes quizDb !! oid2 = Some quiz)
    by (eexists; vm_compute; reflexivity).
  destruct H3 as [quiz H3].
  assert (H4 : forall k, In k (map fst (paths Quiz)) -> obj_get k (body req) = None).
  { intros k Hin. simpl in Hin.
    repeat (destruct Hin as [<-|Hin]; [reflexivity|]). destruct Hin. }
  exists quiz.
  split; [exact H1|]. split; [exact H2|]. split; [exact H3|]. split; [exact H4|].
  destruct (put_without_fields req quizDb oid2 H1 H2) as [_ Hquiz].
  exact (Hquiz quiz H3 H4).
Defined.

Lemma delete_then_absent_witness :
  let req := {| param := id1; body := [] |} in
  castObjectId (param req) = Some oid1
  /\ result (getCourse req (store (deleteCourse req quizDb))) =
       inr {| status := 404; json := ErrorBody (Literal "Course not found") |}.
Proof.
  intros req.
  assert (H1 : castObjectId (param req) = Some oid1) by reflexivity.
  split; [exact H1|].
  destruct (delete_then_absent req quizDb oid1 H1) as [[Hget _] _]. exact Hget.
Defined.

Lemma one_record_at_most_witness :
  let req := {| param := id1; body := [("title", VStr "Logic")] |} in
  let before := collection (target PutCourse) quizDb in
  let after := collection (target PutCourse) (snd (serve PutCourse oid1 req quizDb)) in
  oid1 <> oid2
  /\ (after !! oid1 = before !! oid1 \/ after !! oid2 = before !! oid2).
Proof.
  intros req.
  assert (H1 : oid1 <> oid2) by discriminate.
  pose proof (one_record_at_most PutCourse oid1 req quizDb oid1 oid2 H1) as Hone.
  intros before after. split; [exact H1 | exact Hone].
Defined.

Lemma reads_leave_store_witness :
  kind GetQuiz = Reads
  /\ snd (serve GetQuiz oid1 {| param := id2; body := [] |} quizDb) = quizDb.
Proof.
  assert (H1 : kind GetQuiz = Reads) by reflexivity.
  split; [exact H1|].
  exact (reads_leave_store GetQuiz oid1 {| param := id2; body := [] |} quizDb H1).
Defined.

Lemma getCourses_lists_the_collection_witness :
  let course := versioned (fields (new_ Course oid1 introCourse)) in
  keyed courseDb
  /\ exists docs,
       getCourses {| param := ""; body := [] |} courseDb =
         {| list_status := 200; list_json := DocList docs |}
       /\ In course docs
       /\ length docs = 1%nat
       /\ result (getCourse {| param := id1; body := [] |} courseDb) =
            inr {| status := 200; json := Doc course |}.
Proof.
  intros course.
  assert (H1 : keyed courseDb).
  { change courseDb with (serve_all [(PostCourse, oid1, postIntro)] emptyDb).
    apply serve_all_keyed. intros c id doc Hlook.
    destruct c; cbn in Hlook; rewrite lookup_empty in Hlook; discriminate. }
  split; [exact H1|].
  destruct (getCourses_lists_the_collection {| param := ""; body := [] |} courseDb)
    as (docs & Hlist & Hmem & Hlen & Hfetch).
  assert (Hin : In course docs).
  { apply Hmem. exists oid1. vm_compute. reflexivity. }
  exists docs. split; [exact Hlist|]. split; [exact Hin|].
  split; [rewrite Hlen; vm_compute; reflexivity|].
  destruct (Hfetch H1 course Hin) as (id & Hid & Hget).
  apply Hget. vm_compute in Hid. injection Hid as <-. reflexivity.
Defined.

Lemma getQuizzes_by_courseId_witness :
  let req := {| param := id3; body := [] |} in
  (forall id quiz, quizzes quizDb !! id = Some quiz ->
     obj_get "courseId" quiz <> Some (VOid 163%N))
  /\ getQuizzes req quizDb = {| list_status := 200; list_json := DocList [] |}.
Proof.
  intros req.
  assert (H1 : forall id quiz, quizzes quizDb !! id = Some quiz ->
                 obj_get "courseId" quiz <> Some (VOid 163%N)).
  { intros id quiz Hlook.
    assert (Hq : exists stored, quizzes quizDb = <[oid2 := stored]> ∅
                                /\ obj_get "courseId" stored = Some (VOid oid1)).
    { eexists. split; [vm_compute; reflexivity | reflexivity]. }
    destruct Hq as (stored & Hq & HcourseId). rewrite Hq in Hlook.
    destruct (decide (id = oid2)) as [->|Hne].
    - rewrite lookup_insert_eq in Hlook. injection Hlook as <-. rewrite HcourseId. discriminate.
    - rewrite lookup_insert_ne, lookup_empty in Hlook by congruence. discriminate. }
  split; [exact H1|].
  destruct (getQuizzes_by_courseId req quizDb) as [Hlist _].
  change (castObjectId (param req)) with (Some 163%N) in Hlist.
  destruct Hlist as (docs & Hget & _ & Hempty).
  rewrite Hget. now rewrite (Hempty H1).
Defined.

Lemma postQuiz_then_read_witness :
  let req := {| param := id1; body := ("_id", VNull) :: quizPayload |} in
  let quiz := versioned (fields (new_ Quiz oid2 (spread_with (body req) "courseId" (VStr id1)))) in
  let db' := store (postQuiz oid2 req courseDb) in
  result (postQuiz oid2 req courseDb) = inr {| status := 201; json := Doc quiz |}
  /\ obj_get "_id" quiz = Some VNull
  /\ exists stored after,
       quizzes db' !! oid2 = Some stored
       /\ obj_get "_id" stored = Some (VOid oid2)
       /\ obj_get "questions" stored = obj_get "questions" quiz
       /\ result (getQuiz {| param := id2; body := [] |} db') =
            inr {| status := 200; json := Doc stored |}
       /\ getQuizzes req db' = {| list_status := 200; list_json := DocList after |}
       /\ In stored after.
Proof.
  intros req quiz db'.
  assert (H1 : result (postQuiz oid2 req courseDb) = inr {| status := 201; json := Doc quiz |})
    by (vm_compute; reflexivity).
  split; [exact H1|]. split; [reflexivity|].
  destruct (postQuiz_then_read oid2 req courseDb quiz H1)
    as (id & stored & before & after & _ & Hstored & Hid & Hsame & _ & Hget & _ & Hlist & Hmem).
  fold db' in Hstored, Hget, Hlist.
  assert (Hoid : id = oid2).
  { destruct (decide (id = oid2)) as [Heq|Hne]; [exact Heq|exfalso].
    assert (Hq : quizzes db' = <[oid2 := obj_set "_id" (VOid oid2) quiz]> ∅)
      by (vm_compute; reflexivity).
    rewrite Hq, lookup_insert_ne, lookup_empty in Hstored by congruence. discriminate. }
  subst id. exists stored, after.
  split; [exact Hstored|]. split; [exact Hid|].
  split; [apply Hsame; discriminate|].
  split; [apply Hget; reflexivity|]. split; [exact Hlist|]. apply Hmem. now left.
Defined.

Lemma app_js_routes_witness :
  documented ["api"; "courses"; id1]
  /\ Other "PATCH" <> OPTIONS
  /\ dispatch app_js (Other "PATCH") ["api"; "courses"; id1] = NotFound
  /\ dispatch app_js GET ["api"; "courses"; id1] = NotFound
  /\ dispatch app_js OPTIONS ["api"; "courses"; id1] = Preflight
  /\ dispatch app_js HEAD ["api"; "courses"; "api"; "courses"; id1] = Routed GetCourse id1.
Proof.
  assert (H1 : documented ["api"; "courses"; id1]) by (right; left; exists id1; reflexivity).
  assert (H2 : Other "PATCH" <> OPTIONS) by discriminate.
  assert (H3 : GET <> OPTIONS) by discriminate.
  split; [exact H1|]. split; [exact H2|].
  destruct (app_js_routes (Other "PATCH") ["api"; "courses"; id1]) as (Hpre & Hdoc & _).
  split; [exact (Hdoc H1 H2)|].
  destruct (app_js_routes GET ["api"; "courses"; id1]) as (_ & Hget & _).
  split; [exact (Hget H1 H3)|]. split; [exact Hpre|].
  destruct (app_js_routes GET ["api"; "courses"; "api"; "courses"; id1])
    as (_ & _ & _ & Hhead & Hreach).
  destruct (Hreach id1) as (_ & _ & Hroute & _).
  rewrite Hhead. exact Hroute.
Defined.

Lemma app_alt_routes_witness :
  documented ["api"; "quizzes"; id2]
  /\ PUT <> OPTIONS
  /\ dispatch app_alt PUT ["api"; "quizzes"; id2] = NotFound
  /\ dispatch app_alt PUT ["api"; "api"; "quizzes"; id2] = Routed PutQuiz id2
  /\ handles (verb PutQuiz) PUT = true.
Proof.
  assert (H1 : documented ["api"; "quizzes"; id2])
    by (right; right; right; exists id2; reflexivity).
  assert (H2 : PUT <> OPTIONS) by discriminate.
  split; [exact H1|]. split; [exact H2|].
  destruct (app_alt_routes PUT ["api"; "quizzes"; id2]) as (_ & Hdoc & _).
  split; [exact (Hdoc H1 H2)|].
  destruct (app_alt_routes PUT ["api"; "api"; "quizzes"; id2]) as (_ & _ & Hshape & _ & Hreach).
  destruct (Hreach id2) as (_ & _ & _ & _ & _ & _ & _ & _ & Hput & _).
  split; [exact Hput|]. exact (proj1 (Hshape PutQuiz id2 Hput)).
Defined.
